(** * What's for Supper: the weighted meal picker of [script.js]

    A shallow embedding of [script.js] and the properties of its weighting,
    selection, history filter and meal-list maintenance.

    Modelling conventions.
    - A JavaScript string is its sequence of UTF-16 code units ([JSString]);
      [===] and [Array.prototype.includes] on strings compare code units.
    - Timestamps ([Date.now()], the [date] field) and weights are integral
      JavaScript numbers, modelled by [Z].
    - [Math.random()] is a parameter [r], a double ([Double.t]); the product
      [Math.random() * weightedList.length] is the IEEE-754 binary64 product,
      rounded to nearest with ties to even ([Double.times]).
    - [localStorage] holds the values that [JSON.parse] would give back;
      [JSON.stringify] followed by [JSON.parse] is the identity on arrays of
      strings and on arrays of [{meal, date}] records with integral dates.
    - The DOM is reduced to the fields the logic reads or writes; the
      [innerHTML] of the two lists is not modelled. *)

From Stdlib Require Import String Ascii.
From Stdlib Require Import List ZArith QArith Qround Qabs Bool Lia.
From Stdlib Require Import Permutation Sorted.
From Stdlib Require Import SpecFloat.
Import ListNotations.

Local Open Scope Z_scope.

(** ** Strings *)

Definition JSString := list N.

Definition JSString_eq_dec : forall a b : JSString, {a = b} + {a <> b} :=
  list_eq_dec N.eq_dec.

(** [a === b] on strings. *)
Definition strictEq (a b : JSString) : bool :=
  if JSString_eq_dec a b then true else false.

(** A string literal of the source, as code units. *)
Definition str (s : string) : JSString :=
  map N_of_ascii (list_ascii_of_string s).

(** The code units ECMAScript counts as WhiteSpace or LineTerminator, which
    is what [String.prototype.trim] strips. *)
Definition isWhiteSpace (c : N) : bool :=
  ((9 <=? c) && (c <=? 13) || (c =? 32) || (c =? 160) || (c =? 5760)
   || (8192 <=? c) && (c <=? 8202) || (c =? 8232) || (c =? 8233)
   || (c =? 8239) || (c =? 8287) || (c =? 12288) || (c =? 65279))%N.

Fixpoint trimStart (s : JSString) : JSString :=
  match s with
  | [] => []
  | c :: s' => if isWhiteSpace c then trimStart s' else s
  end.

Definition trimEnd (s : JSString) : JSString := rev (trimStart (rev s)).

(** [s.trim()] *)
Definition trim (s : JSString) : JSString := trimEnd (trimStart s).

(** ** Records *)

(** A history record [{ meal, date }]. *)
Module HistoryItem.
Record t : Type := mk { meal : JSString; date : Z }.
End HistoryItem.

(** A weighted meal [{ meal, weight }], the element type of [mealWeights]. *)
Module MealWeight.
Record t : Type := mk { meal : JSString; weight : Z }.
End MealWeight.

(** ** The weight model (step 1 of [pickWeightedMeal]) *)

Definition RECENT_DAYS_MS : Z := 30 * 24 * 60 * 60 * 1000.

(** [history.filter(item => item.meal === meal)
           .reduce((latest, item) => Math.max(latest, item.date), 0)] *)
Definition lastEaten (history : list HistoryItem.t) (meal : JSString) : Z :=
  fold_left (fun latest item => Z.max latest (HistoryItem.date item))
            (filter (fun item => strictEq (HistoryItem.meal item) meal) history)
            0.

Definition isRecent (now lastEaten : Z) : bool :=
  (now - lastEaten) <? RECENT_DAYS_MS.

(** The body of the arrow function given to [meals.map]. *)
Definition weigh (history : list HistoryItem.t) (now : Z) (meal : JSString)
  : MealWeight.t :=
  let lastEaten := lastEaten history meal in
  let isRecent := isRecent now lastEaten in
  let weight := if isRecent then 1 else 10 in
  MealWeight.mk meal weight.

Definition mealWeights (meals : list JSString) (history : list HistoryItem.t)
    (now : Z) : list MealWeight.t :=
  map (weigh history now) meals.

(** ** The weighted selection array (step 2) *)

(** [for (let i = 0; i < weight; i++) weightedList.push(meal)], with [n] the
    number of iterations left. *)
Fixpoint pushTimes (weightedList : list JSString) (meal : JSString) (n : nat)
  : list JSString :=
  match n with
  | O => weightedList
  | S n' => pushTimes (weightedList ++ [meal]) meal n'
  end.

(** [mealWeights.forEach(item => { for ... })] starting from [[]]. *)
Definition weightedList (mealWeights : list MealWeight.t) : list JSString :=
  fold_left
    (fun acc item =>
       pushTimes acc (MealWeight.meal item) (Z.to_nat (MealWeight.weight item)))
    mealWeights [].

(** ** The draw (step 3) *)

(** A finite, non-negative double: the number [significand / 2 ^ scale]
    (times [2 ^ (- scale)] when the scale is negative).  A double has a
    significand below [2 ^ 53] and a scale of at most 1074. *)
Module Double.
Record t : Type := mk { significand : Z; scale : Z }.

(** [m / 2 ^ s] rounded to the nearest integer, a tie going to the even
    one; [s] is at least 1. *)
Definition roundNearestEven (m s : Z) : Z :=
  let q := m / 2 ^ s in
  let rest := m mod 2 ^ s in
  let half := 2 ^ (s - 1) in
  if rest <? half then q
  else if half <? rest then q + 1
  else if Z.even q then q else q + 1.

(** [x * n] in double arithmetic, for an integer [n] that is itself a
    double, as an array length is: the exact product has the significand
    [significand x * n]; when that has more than 53 bits, the bits beyond 53
    are rounded away.  No product of a value below 1 and an array length
    overflows or falls below the smallest double. *)
Definition times (x : t) (n : Z) : t :=
  let m := significand x * n in
  let s := Z.log2 m + 1 - 53 in
  if s <=? 0 then mk m (scale x)
  else mk (roundNearestEven m s) (scale x - s).

(** [Math.floor(x)] *)
Definition floor (x : t) : Z :=
  if 0 <=? scale x then significand x / 2 ^ scale x
  else significand x * 2 ^ (- scale x).

(** The number a double stands for. *)
Definition toQ (x : t) : Q :=
  if 0 <=? scale x then significand x # Z.to_pos (2 ^ scale x)
  else inject_Z (significand x * 2 ^ (- scale x)).
End Double.

(** What [Math.random()] can return: a double that is at least 0 and below
    1. *)
Definition isRandomValue (r : Double.t) : Prop :=
  0 <= Double.significand r < 2 ^ 53
  /\ Double.significand r < 2 ^ Double.scale r
  /\ 0 <= Double.scale r <= 1074.

(** [Math.floor(r * length)] *)
Definition randomIndex (r : Double.t) (length : nat) : Z :=
  Double.floor (Double.times r (Z.of_nat length)).

(** [array[index]]: [None] is [undefined]. *)
Definition at_index {A : Type} (array : list A) (index : Z) : option A :=
  if index <? 0 then None else nth_error array (Z.to_nat index).

Definition chosenMeal (mealWeights : list MealWeight.t) (r : Double.t)
  : option JSString :=
  let weightedList := weightedList mealWeights in
  at_index weightedList (randomIndex r (length weightedList)).

(** [mealWeights.find(item => item.meal === chosenMeal)] *)
Definition weightInfo (mealWeights : list MealWeight.t) (chosenMeal : JSString)
  : option MealWeight.t :=
  find (fun item => strictEq (MealWeight.meal item) chosenMeal) mealWeights.

(** ** The history filter of [renderHistory] *)

(** [array.sort(compare)]: ECMAScript requires the sort to be stable, and a
    consistent comparator fixes its result; it is modelled by a stable
    insertion sort.  [compare a b <= 0] keeps [a] before [b]. *)
Section ArraySort.
Context {A : Type}.
Variable compare : A -> A -> Z.

Fixpoint sortInsert (a : A) (sorted : list A) : list A :=
  match sorted with
  | [] => [a]
  | b :: rest =>
      if compare a b <=? 0 then a :: b :: rest else b :: sortInsert a rest
  end.

Fixpoint sort (array : list A) : list A :=
  match array with
  | [] => []
  | a :: rest => sortInsert a (sort rest)
  end.
End ArraySort.

(** [array.slice(0, n)] *)
Definition slice0 {A : Type} (n : nat) (array : list A) : list A :=
  firstn n array.

(** [now - (30 * 24 * 60 * 60 * 1000)], 30 days ago. *)
Definition cutoffDate (now : Z) : Z := now - (30 * 24 * 60 * 60 * 1000).

(** [history.filter(item => item.date > cutoffDate)
           .sort((a, b) => b.date - a.date)], before the slice. *)
Definition recentSorted (history : list HistoryItem.t) (now : Z)
  : list HistoryItem.t :=
  sort (fun a b => HistoryItem.date b - HistoryItem.date a)
       (filter (fun item => cutoffDate now <? HistoryItem.date item) history).

(** The [recentHistory] of [renderHistory], with [Date.now()] given as [now]. *)
Definition recentHistory (history : list HistoryItem.t) (now : Z)
  : list HistoryItem.t :=
  slice0 10 (recentSorted history now).

(** ** The page: storage, the module-level variable and the DOM fields *)

Record Page : Type := mkPage {
  stored_mealList : option (list JSString);      (* localStorage[MEAL_LIST_KEY] *)
  stored_history : option (list HistoryItem.t);  (* localStorage[HISTORY_KEY] *)
  currentPickedMeal : option JSString;           (* [None] is [null] *)
  newMealInput : JSString;                       (* newMealInput.value *)
  pickerMessage : JSString;                      (* pickerMessage.textContent *)
  chosenMealDisplay : JSString;                  (* chosenMealDisplay.textContent *)
  resultArea_hidden : bool;
  pickMealBtn_hidden : bool;
  alerts : list JSString                         (* the alert() calls so far *)
}.

Definition set_stored_mealList (st : Page) (v : list JSString) : Page :=
  mkPage (Some v) (stored_history st) (currentPickedMeal st) (newMealInput st)
         (pickerMessage st) (chosenMealDisplay st) (resultArea_hidden st)
         (pickMealBtn_hidden st) (alerts st).

Definition set_stored_history (st : Page) (v : list HistoryItem.t) : Page :=
  mkPage (stored_mealList st) (Some v) (currentPickedMeal st) (newMealInput st)
         (pickerMessage st) (chosenMealDisplay st) (resultArea_hidden st)
         (pickMealBtn_hidden st) (alerts st).

Definition set_currentPickedMeal (st : Page) (v : option JSString) : Page :=
  mkPage (stored_mealList st) (stored_history st) v (newMealInput st)
         (pickerMessage st) (chosenMealDisplay st) (resultArea_hidden st)
         (pickMealBtn_hidden st) (alerts st).

Definition set_newMealInput (st : Page) (v : JSString) : Page :=
  mkPage (stored_mealList st) (stored_history st) (currentPickedMeal st) v
         (pickerMessage st) (chosenMealDisplay st) (resultArea_hidden st)
         (pickMealBtn_hidden st) (alerts st).

Definition set_pickerMessage (st : Page) (v : JSString) : Page :=
  mkPage (stored_mealList st) (stored_history st) (currentPickedMeal st)
         (newMealInput st) v (chosenMealDisplay st) (resultArea_hidden st)
         (pickMealBtn_hidden st) (alerts st).

Definition set_chosenMealDisplay (st : Page) (v : JSString) : Page :=
  mkPage (stored_mealList st) (stored_history st) (currentPickedMeal st)
         (newMealInput st) (pickerMessage st) v (resultArea_hidden st)
         (pickMealBtn_hidden st) (alerts st).

Definition set_resultArea_hidden (st : Page) (v : bool) : Page :=
  mkPage (stored_mealList st) (stored_history st) (currentPickedMeal st)
         (newMealInput st) (pickerMessage st) (chosenMealDisplay st) v
         (pickMealBtn_hidden st) (alerts st).

Definition set_pickMealBtn_hidden (st : Page) (v : bool) : Page :=
  mkPage (stored_mealList st) (stored_history st) (currentPickedMeal st)
         (newMealInput st) (pickerMessage st) (chosenMealDisplay st)
         (resultArea_hidden st) v (alerts st).

Definition alert (st : Page) (message : JSString) : Page :=
  mkPage (stored_mealList st) (stored_history st) (currentPickedMeal st)
         (newMealInput st) (pickerMessage st) (chosenMealDisplay st)
         (resultArea_hidden st) (pickMealBtn_hidden st)
         (alerts st ++ [message]).

(** ** Data management *)

Definition defaultMeals : list JSString :=
  [str "Tacos"; str "Spaghetti"; str "Chicken Stir-Fry"; str "Sushi";
   str "Steak"].

Definition loadMeals (st : Page) : list JSString :=
  match stored_mealList st with
  | Some meals => meals
  | None => defaultMeals
  end.

Definition loadHistory (st : Page) : list HistoryItem.t :=
  match stored_history st with
  | Some history => history
  | None => []
  end.

Definition saveMeals (st : Page) (meals : list JSString) : Page :=
  set_stored_mealList st meals.

Definition saveHistory (st : Page) (history : list HistoryItem.t) : Page :=
  set_stored_history st history.

(** Truthiness of a value that is a string or [null]. *)
Definition truthy (v : option JSString) : bool :=
  match v with
  | Some (_ :: _) => true
  | _ => false
  end.

(** [meals.includes(newMeal)] *)
Definition includes (meals : list JSString) (newMeal : JSString) : bool :=
  existsb (fun meal => strictEq meal newMeal) meals.

(** ** Meal list interaction *)

Definition addMeal (st : Page) : Page :=
  let newMeal := trim (newMealInput st) in
  if truthy (Some newMeal) then
    let meals := loadMeals st in
    if negb (includes meals newMeal) then
      let meals := meals ++ [newMeal] in
      let st := saveMeals st meals in
      set_newMealInput st []
    else
      alert st (str "This meal is already on the list!")
  else st.

Definition deleteMeal (st : Page) (mealName : JSString) : Page :=
  let meals := loadMeals st in
  let meals := filter (fun meal => negb (strictEq meal mealName)) meals in
  saveMeals st meals.

(** ** The picker *)

(** How a call ends: with a value, or with the [TypeError] of reading
    [.weight] of [undefined]. *)
Inductive Completion (A : Type) : Type :=
| Return (value : A)
| ThrowTypeError.
Arguments Return {A} value.
Arguments ThrowTypeError {A}.

Definition reducedChanceNote (chosenMeal : JSString) : JSString :=
  str "Note: " ++ chosenMeal
  ++ str " had a reduced chance (weight: 1) as it was eaten recently.".

(** [pickWeightedMeal()], with [Date.now()] and [Math.random()] given as
    [now] and [r].  [Return None] is [return null]. *)
Definition pickWeightedMeal (st : Page) (now : Z) (r : Double.t)
  : Completion (option JSString) * Page :=
  let meals := loadMeals st in
  let history := loadHistory st in
  let st := set_pickerMessage st [] in
  if (length meals =? 0)%nat then
    (Return None, set_pickerMessage st (str "Please add some meals first!"))
  else
    let mealWeights := mealWeights meals history now in
    match chosenMeal mealWeights r with
    | None => (ThrowTypeError, st)   (* no item has meal === undefined *)
    | Some chosenMeal =>
        match weightInfo mealWeights chosenMeal with
        | None => (ThrowTypeError, st)
        | Some weightInfo =>
            let st :=
              if MealWeight.weight weightInfo =? 1
              then set_pickerMessage st (reducedChanceNote chosenMeal)
              else st in
            (Return (Some chosenMeal), st)
        end
    end.

Definition resetPickerUI (st : Page) : Page :=
  let st := set_currentPickedMeal st None in
  let st := set_resultArea_hidden st true in
  let st := set_pickMealBtn_hidden st false in
  set_chosenMealDisplay st [].

Definition displayPickedMeal (st : Page) (now : Z) (r : Double.t) : Page :=
  match pickWeightedMeal st now r with
  | (ThrowTypeError, st) => st
  | (Return picked, st) =>
      let st := set_currentPickedMeal st picked in
      let st := set_pickMealBtn_hidden st true in
      match picked with
      | Some (c :: s) =>
          let st := set_chosenMealDisplay st (c :: s) in
          set_resultArea_hidden st false
      | _ =>
          let st := set_resultArea_hidden st true in
          set_pickMealBtn_hidden st false
      end
  end.

Definition confirmedMessage (meal : JSString) : JSString :=
  str "Confirmed! You are making " ++ meal
  ++ str " tonight. History updated!".

(** [confirmMeal()], with [Date.now()] given as [now]. *)
Definition confirmMeal (st : Page) (now : Z) : Page :=
  match currentPickedMeal st with
  | Some (c :: s) =>
      let meal := c :: s in
      let history := loadHistory st in
      let history := history ++ [HistoryItem.mk meal now] in
      let st := saveHistory st history in
      let st := set_pickerMessage st (confirmedMessage meal) in
      resetPickerUI st
  | _ => st
  end.

Definition cancelPick (st : Page) : Page :=
  let st := set_pickerMessage st (str "Meal choice canceled. Pick again!") in
  resetPickerUI st.

(** ** The user's actions and the page they lead to *)

Inductive Event : Type :=
| TypeMeal (value : JSString)      (* editing the input field *)
| ClickAddMeal                     (* also Enter in the input field *)
| ClickDelete (mealName : JSString)
| ClickPickMeal (now : Z) (r : Double.t)
| ClickConfirm (now : Z)
| ClickCancel.

Definition handle (st : Page) (e : Event) : Page :=
  match e with
  | TypeMeal value => set_newMealInput st value
  | ClickAddMeal => addMeal st
  | ClickDelete mealName => deleteMeal st mealName
  | ClickPickMeal now r => displayPickedMeal st now r
  | ClickConfirm now => confirmMeal st now
  | ClickCancel => cancelPick st
  end.

Definition run (st : Page) (events : list Event) : Page :=
  fold_left handle events st.

(** * Vocabulary of the statements *)

(** The meal occurs in no history entry. *)
Definition neverEaten (history : list HistoryItem.t) (meal : JSString) : Prop :=
  forall item, In item history -> HistoryItem.meal item <> meal.

(** [t] is the timestamp of the most recent history entry of the meal. *)
Definition mostRecentlyEaten (history : list HistoryItem.t) (meal : JSString)
    (t : Z) : Prop :=
  (exists item, In item history /\ HistoryItem.meal item = meal
                /\ HistoryItem.date item = t)
  /\ forall item, In item history -> HistoryItem.meal item = meal ->
                  HistoryItem.date item <= t.

(** The copies of one weighted meal in the array. *)
Definition copies (item : MealWeight.t) : list JSString :=
  repeat (MealWeight.meal item) (Z.to_nat (MealWeight.weight item)).

(** The sum of the weights of the sequence. *)
Definition totalWeight (items : list MealWeight.t) : Z :=
  fold_right (fun item total => MealWeight.weight item + total) 0 items.

(** The sum of the weights of the items that carry the name [meal]. *)
Definition weightOf (meal : JSString) (items : list MealWeight.t) : Z :=
  totalWeight (filter (fun item => strictEq (MealWeight.meal item) meal) items).

(** Every weight of the sequence is a positive integer. *)
Definition positiveWeights (items : list MealWeight.t) : Prop :=
  Forall (fun item => 0 < MealWeight.weight item) items.


(** The double nearest to 0.95, which is what the literal [0.95] denotes. *)
Definition double_0_95 : Double.t := Double.mk 8556839292003942 53.

(** The double 0.5. *)
Definition double_0_5 : Double.t := Double.mk 1 1.

(** One day, in milliseconds. *)
Definition day_ms : Z := 24 * 60 * 60 * 1000.

(** The array of step 2 with the weighted meals themselves in place of their
    names: which item each slot of [weightedList] comes from. *)
Definition itemPool (items : list MealWeight.t) : list MealWeight.t :=
  flat_map (fun item => repeat item (Z.to_nat (MealWeight.weight item))) items.

(** The weighted meal whose slot the draw hits. *)
Definition selectedItem (items : list MealWeight.t) (r : Double.t)
  : option MealWeight.t :=
  at_index (itemPool items) (randomIndex r (length (itemPool items))).

(** [a] is at least as recent as [b]. *)
Definition notOlder (a b : HistoryItem.t) : Prop :=
  HistoryItem.date b <= HistoryItem.date a.

(** Every code unit of [s] is whitespace ([s] may be empty). *)
Definition allWhiteSpace (s : JSString) : Prop :=
  Forall (fun c => isWhiteSpace c = true) s.

(** [s] does not start with whitespace. *)
Definition noLeadingWhiteSpace (s : JSString) : Prop :=
  match s with
  | c :: _ => isWhiteSpace c = false
  | [] => True
  end.

(** [s] does not end with whitespace. *)
Definition noTrailingWhiteSpace (s : JSString) : Prop :=
  noLeadingWhiteSpace (rev s).

(** Walking the weighted meals with a running remainder: the meal whose
    stretch of cumulative weight contains [k]. *)
Fixpoint cumulativePick (items : list MealWeight.t) (k : Z) : option JSString :=
  match items with
  | [] => None
  | item :: rest =>
      if k <? MealWeight.weight item then Some (MealWeight.meal item)
      else cumulativePick rest (k - MealWeight.weight item)
  end.

(** The picker's display matches the pending pick: the result area is shown
    and the pick button hidden exactly while a pick is pending. *)
Definition uiConsistent (st : Page) : Prop :=
  resultArea_hidden st = negb (truthy (currentPickedMeal st))
  /\ pickMealBtn_hidden st = truthy (currentPickedMeal st).

(** A name that is not empty and neither starts nor ends with whitespace. *)
Definition trimmedName (s : JSString) : Prop :=
  s <> [] /\ noLeadingWhiteSpace s /\ noTrailingWhiteSpace s.

(** The number of clicks on the confirm button among the events. *)
Definition confirmClicks (events : list Event) : nat :=
  length (filter (fun e => match e with ClickConfirm _ => true | _ => false end)
                 events).

(** No click on the add button and no click on a delete button. *)
Definition leavesMealList (e : Event) : bool :=
  match e with
  | ClickAddMeal | ClickDelete _ => false
  | _ => true
  end.

(** The floor of the product of [m / 2 ^ k] and [n] by the reference
    multiplication of binary64, [SFmul 53 1024]. *)
Definition referenceIndex (m k n : Z) : option Z :=
  match SFmul 53 1024 (binary_normalize 53 1024 m (- k) false)
                      (binary_normalize 53 1024 n 0 false) with
  | S754_zero _ => Some 0
  | S754_finite false p e =>
      Some (if 0 <=? e then Z.pos p * 2 ^ e else Z.pos p / 2 ^ (- e))
  | _ => None
  end.

(** * Properties *)

(** ** Strings and comparison *)

Lemma strictEq_true_iff (a b : JSString) : strictEq a b = true <-> a = b.
Proof.
  unfold strictEq. destruct (JSString_eq_dec a b); split; congruence.
Qed.

Lemma strictEq_false_iff (a b : JSString) : strictEq a b = false <-> a <> b.
Proof.
  unfold strictEq. destruct (JSString_eq_dec a b); split; congruence.
Qed.

Lemma strictEq_refl (a : JSString) : strictEq a a = true.
Proof. now apply strictEq_true_iff. Qed.

Lemma includes_In (meals : list JSString) (newMeal : JSString) :
  includes meals newMeal = true <-> In newMeal meals.
Proof.
  unfold includes. rewrite existsb_exists. split.
  - intros (x & Hin & Heq). apply strictEq_true_iff in Heq. now subst.
  - intros Hin. exists newMeal. split; [assumption | apply strictEq_refl].
Qed.

(** ** The weight model *)

Section LastEaten.
Variable history : list HistoryItem.t.
Variable meal : JSString.

Let eaten : list HistoryItem.t :=
  filter (fun item => strictEq (HistoryItem.meal item) meal) history.

Lemma fold_max_lower (l : list HistoryItem.t) (latest : Z) :
  latest <= fold_left (fun latest item => Z.max latest (HistoryItem.date item))
                      l latest.
Proof.
  revert latest. induction l as [|x l IH]; intros latest; simpl; [lia|].
  specialize (IH (Z.max latest (HistoryItem.date x))). lia.
Qed.

Lemma fold_max_upper (l : list HistoryItem.t) (latest : Z) (item : HistoryItem.t) :
  In item l ->
  HistoryItem.date item
  <= fold_left (fun latest item => Z.max latest (HistoryItem.date item))
               l latest.
Proof.
  revert latest. induction l as [|x l IH]; intros latest Hin; simpl.
  - contradiction.
  - destruct Hin as [->|Hin].
    + pose proof (fold_max_lower l (Z.max latest (HistoryItem.date item))). lia.
    + now apply IH.
Qed.

Lemma fold_max_attained (l : list HistoryItem.t) (latest : Z) :
  let m := fold_left (fun latest item => Z.max latest (HistoryItem.date item))
                     l latest in
  m = latest \/ exists item, In item l /\ HistoryItem.date item = m.
Proof.
  revert latest. induction l as [|x l IH]; intros latest; simpl; [now left|].
  destruct (IH (Z.max latest (HistoryItem.date x))) as [Heq | (y & Hy & Heq)].
  - rewrite Heq. destruct (Z.max_spec latest (HistoryItem.date x)) as [[_ ->]|[_ ->]].
    + right. exists x. auto.
    + now left.
  - right. exists y. auto.
Qed.

Lemma lastEaten_nonneg : 0 <= lastEaten history meal.
Proof. apply fold_max_lower. Qed.

Lemma lastEaten_upper (item : HistoryItem.t) :
  In item history -> HistoryItem.meal item = meal ->
  HistoryItem.date item <= lastEaten history meal.
Proof.
  intros Hin Heq. apply fold_max_upper. apply filter_In. split; [assumption|].
  now apply strictEq_true_iff.
Qed.

Lemma lastEaten_attained :
  lastEaten history meal = 0
  \/ exists item, In item history /\ HistoryItem.meal item = meal
                  /\ HistoryItem.date item = lastEaten history meal.
Proof.
  destruct (fold_max_attained eaten 0) as [H | (y & Hy & H)].
  - now left.
  - right. exists y. apply filter_In in Hy. destruct Hy as [Hin Heq].
    apply strictEq_true_iff in Heq. auto.
Qed.
End LastEaten.

Lemma lastEaten_never (history : list HistoryItem.t) (meal : JSString) :
  neverEaten history meal -> lastEaten history meal = 0.
Proof.
  intros Hnever. destruct (lastEaten_attained history meal) as [H | (y & Hin & Heq & _)].
  - assumption.
  - exfalso. exact (Hnever y Hin Heq).
Qed.

Lemma lastEaten_mostRecent (history : list HistoryItem.t) (meal : JSString) (t : Z) :
  mostRecentlyEaten history meal t -> lastEaten history meal = Z.max 0 t.
Proof.
  intros [(x & Hx & Hm & Hd) Hmax].
  pose proof (lastEaten_nonneg history meal) as H0.
  pose proof (lastEaten_upper history meal x Hx Hm) as Hup.
  destruct (lastEaten_attained history meal) as [H | (y & Hin & Heq & Hy)].
  - lia.
  - specialize (Hmax y Hin Heq). lia.
Qed.

Lemma weigh_meal (history : list HistoryItem.t) (now : Z) (meal : JSString) :
  MealWeight.meal (weigh history now meal) = meal.
Proof. reflexivity. Qed.

Lemma weigh_weight (history : list HistoryItem.t) (now : Z) (meal : JSString) :
  MealWeight.weight (weigh history now meal)
  = if now - lastEaten history meal <? RECENT_DAYS_MS then 1 else 10.
Proof. reflexivity. Qed.

Lemma weigh_weight_cases (history : list HistoryItem.t) (now : Z) (meal : JSString) :
  MealWeight.weight (weigh history now meal) = 1
  \/ MealWeight.weight (weigh history now meal) = 10.
Proof.
  rewrite weigh_weight. destruct (_ <? _); auto.
Qed.

Lemma mealWeights_nth (meals : list JSString) (history : list HistoryItem.t)
    (now : Z) (i : nat) (meal : JSString) :
  nth_error meals i = Some meal ->
  nth_error (mealWeights meals history now) i = Some (weigh history now meal).
Proof.
  intros H. unfold mealWeights. now apply map_nth_error.
Qed.

(** Once the clock is at least 30 days past the epoch, the weights are what
    the comments of the source say: 1 or 10 and nothing else; 10 for a meal
    that occurs in no history entry; 1 for a meal whose most recent entry is
    less than 30 days old; 10 for a meal whose most recent entry is at least
    30 days old. *)
Lemma mealWeights_by_recency (meals : list JSString)
    (history : list HistoryItem.t) (now : Z) (i : nat) (meal : JSString) :
  nth_error meals i = Some meal -> RECENT_DAYS_MS <= now ->
  exists w,
    nth_error (mealWeights meals history now) i = Some (MealWeight.mk meal w)
    /\ (w = 1 \/ w = 10)
    /\ (neverEaten history meal -> w = 10)
    /\ (forall t, mostRecentlyEaten history meal t ->
                  now - t < RECENT_DAYS_MS -> w = 1)
    /\ (forall t, mostRecentlyEaten history meal t ->
                  RECENT_DAYS_MS <= now - t -> w = 10).
Proof.
  intros Hnth Hnow.
  exists (MealWeight.weight (weigh history now meal)).
  split; [exact (mealWeights_nth _ _ _ _ _ Hnth)|].
  split; [apply weigh_weight_cases|].
  rewrite weigh_weight. split; [|split].
  - intros Hnever. rewrite (lastEaten_never _ _ Hnever).
    destruct (Z.ltb_spec (now - 0) RECENT_DAYS_MS); [lia | reflexivity].
  - intros t Hrecent Hlt. rewrite (lastEaten_mostRecent _ _ _ Hrecent).
    destruct (Z.ltb_spec (now - Z.max 0 t) RECENT_DAYS_MS); [reflexivity | lia].
  - intros t Hrecent Hold. rewrite (lastEaten_mostRecent _ _ _ Hrecent).
    destruct (Z.ltb_spec (now - Z.max 0 t) RECENT_DAYS_MS); [lia | reflexivity].
Qed.

(** C2, at the failing input.  When the clock reads less than 30 days after
    the epoch, here 0, a meal that occurs in no history entry gets weight 1
    and not the default weight 10: the initial value 0 of the [reduce]
    counts as a meal eaten at the epoch. *)
Theorem never_eaten_weight_at_epoch :
  neverEaten [] (str "Tacos")
  /\ lastEaten [] (str "Tacos") = 0
  /\ isRecent 0 (lastEaten [] (str "Tacos")) = true
  /\ mealWeights [str "Tacos"] [] 0 = [MealWeight.mk (str "Tacos") 1]
  /\ ~ (forall meals history now i meal,
          nth_error meals i = Some meal -> neverEaten history meal ->
          nth_error (mealWeights meals history now) i
          = Some (MealWeight.mk meal 10)).
Proof.
  split; [intros item []|]. split; [reflexivity|]. split; [reflexivity|].
  split; [reflexivity|].
  intros H. specialize (H [str "Tacos"] [] 0 0%nat (str "Tacos") eq_refl).
  assert (Hn : neverEaten [] (str "Tacos")) by (intros item []).
  specialize (H Hn). discriminate H.
Qed.

(** ** The weighted selection array *)

Lemma pushTimes_repeat (acc : list JSString) (meal : JSString) (n : nat) :
  pushTimes acc meal n = acc ++ repeat meal n.
Proof.
  revert acc. induction n as [|n IH]; intros acc; simpl.
  - now rewrite app_nil_r.
  - rewrite IH, <- app_assoc. reflexivity.
Qed.

Lemma weightedList_flat_map (items : list MealWeight.t) :
  weightedList items = flat_map copies items.
Proof.
  unfold weightedList.
  enough (H : forall acc,
             fold_left (fun acc item =>
                          pushTimes acc (MealWeight.meal item)
                                    (Z.to_nat (MealWeight.weight item)))
                       items acc
             = acc ++ flat_map copies items) by apply (H []).
  induction items as [|item items IH]; intros acc; simpl.
  - now rewrite app_nil_r.
  - rewrite IH, pushTimes_repeat, <- app_assoc. reflexivity.
Qed.

Lemma length_copies (item : MealWeight.t) :
  0 < MealWeight.weight item ->
  Z.of_nat (length (copies item)) = MealWeight.weight item.
Proof.
  intros H. unfold copies. rewrite repeat_length. lia.
Qed.

Lemma weightedList_length (items : list MealWeight.t) :
  positiveWeights items ->
  Z.of_nat (length (weightedList items)) = totalWeight items.
Proof.
  rewrite weightedList_flat_map.
  induction 1 as [|item items Hpos _ IH]; simpl; [reflexivity|].
  rewrite length_app, Nat2Z.inj_add, IH, length_copies by assumption.
  reflexivity.
Qed.

Lemma count_occ_repeat_same (meal : JSString) (n : nat) :
  count_occ JSString_eq_dec (repeat meal n) meal = n.
Proof.
  induction n as [|n IH]; simpl; [reflexivity|].
  destruct (JSString_eq_dec meal meal); congruence.
Qed.

Lemma count_occ_repeat_other (meal other : JSString) (n : nat) :
  other <> meal -> count_occ JSString_eq_dec (repeat other n) meal = 0%nat.
Proof.
  intros Hneq. induction n as [|n IH]; simpl; [reflexivity|].
  destruct (JSString_eq_dec other meal); congruence.
Qed.

Lemma weightedList_count (items : list MealWeight.t) (meal : JSString) :
  positiveWeights items ->
  Z.of_nat (count_occ JSString_eq_dec (weightedList items) meal)
  = weightOf meal items.
Proof.
  rewrite weightedList_flat_map. unfold weightOf.
  induction 1 as [|item items Hpos _ IH]; simpl; [reflexivity|].
  rewrite count_occ_app, Nat2Z.inj_add, IH. unfold copies at 1.
  destruct (strictEq (MealWeight.meal item) meal) eqn:E.
  - apply strictEq_true_iff in E. subst meal.
    rewrite count_occ_repeat_same. simpl. lia.
  - apply strictEq_false_iff in E.
    rewrite count_occ_repeat_other by assumption. reflexivity.
Qed.

Lemma weightOf_absent (items : list MealWeight.t) (meal : JSString) :
  ~ In meal (map MealWeight.meal items) -> weightOf meal items = 0.
Proof.
  unfold weightOf. induction items as [|item items IH]; simpl; [reflexivity|].
  intros Hnot. destruct (strictEq (MealWeight.meal item) meal) eqn:E.
  - apply strictEq_true_iff in E. tauto.
  - apply IH. tauto.
Qed.

Lemma weightOf_unique (items : list MealWeight.t) (item : MealWeight.t) :
  NoDup (map MealWeight.meal items) -> In item items ->
  weightOf (MealWeight.meal item) items = MealWeight.weight item.
Proof.
  induction items as [|x items IH]; simpl; [contradiction|].
  intros Hnd Hin. inversion Hnd as [|? ? Hnotin Hnd']; subst.
  unfold weightOf. simpl.
  destruct (strictEq (MealWeight.meal x) (MealWeight.meal item)) eqn:E.
  - apply strictEq_true_iff in E. destruct Hin as [->|Hin].
    + simpl. fold (weightOf (MealWeight.meal item) items).
      rewrite weightOf_absent by assumption. lia.
    + exfalso. apply Hnotin. rewrite E. now apply in_map.
  - apply strictEq_false_iff in E. destruct Hin as [->|Hin]; [congruence|].
    now apply IH.
Qed.

(** ** The draw *)

Lemma roundNearestEven_bounds (m s : Z) :
  0 <= m -> 1 <= s ->
  m / 2 ^ s <= Double.roundNearestEven m s <= m / 2 ^ s + 1
  /\ Double.roundNearestEven m s * 2 ^ s <= m + 2 ^ (s - 1).
Proof.
  intros Hm Hs. unfold Double.roundNearestEven. cbv zeta.
  assert (Hhalf : 0 < 2 ^ (s - 1)) by (apply Z.pow_pos_nonneg; lia).
  assert (HP : 2 ^ s = 2 * 2 ^ (s - 1)).
  { replace s with (1 + (s - 1)) at 1 by lia. rewrite Z.pow_add_r by lia. reflexivity. }
  pose proof (Z.div_mod m (2 ^ s) ltac:(lia)) as Hdm.
  pose proof (Z.mod_pos_bound m (2 ^ s) ltac:(lia)) as Hmod.
  set (q := m / 2 ^ s) in *. set (rest := m mod 2 ^ s) in *.
  set (half := 2 ^ (s - 1)) in *.
  destruct (Z.ltb_spec rest half); [split; nia|].
  destruct (Z.ltb_spec half rest); [split; nia|].
  destruct (Z.even q); split; nia.
Qed.

Lemma log2_window (m s : Z) :
  s = Z.log2 m + 1 - 53 -> 1 <= s ->
  2 ^ (s - 1) * 2 ^ 53 <= m < 2 ^ s * 2 ^ 53.
Proof.
  intros Hs H1.
  assert (Hm : 0 < m).
  { destruct (Z.lt_trichotomy m 0) as [H | [H | H]]; [|subst m|assumption].
    - rewrite Z.log2_nonpos in Hs by lia. lia.
    - simpl in Hs. lia. }
  pose proof (Z.log2_spec m Hm) as [Hlo Hhi].
  pose proof (Z.log2_nonneg m).
  rewrite <- !Z.pow_add_r by lia.
  replace (s - 1 + 53) with (Z.log2 m) by lia.
  replace (s + 53) with (Z.succ (Z.log2 m)) by lia. lia.
Qed.

Lemma times_below (m k n : Z) :
  0 <= m < 2 ^ 53 -> m < 2 ^ k -> 0 <= k -> 1 <= n ->
  0 <= Double.floor (Double.times (Double.mk m k) n) < n.
Proof.
  intros Hm Hmk Hk Hn. unfold Double.times. cbn [Double.significand Double.scale].
  set (M := m * n). set (s := Z.log2 M + 1 - 53).
  assert (HD : 0 < 2 ^ k) by (apply Z.pow_pos_nonneg; lia).
  assert (HM : 0 <= M) by (unfold M; nia).
  destruct (Z.leb_spec s 0) as [Hs | Hs].
  - unfold Double.floor. cbn [Double.significand Double.scale].
    destruct (Z.leb_spec 0 k); [|lia]. split.
    + apply Z.div_pos; lia.
    + apply Z.div_lt_upper_bound; [lia|]. unfold M. nia.
  - destruct (roundNearestEven_bounds M s HM ltac:(lia)) as [[Hq Hq1] Hup].
    destruct (log2_window M s eq_refl ltac:(lia)) as [Hlo Hhi].
    set (q' := Double.roundNearestEven M s) in *.
    assert (Hhalf : 0 < 2 ^ (s - 1)) by (apply Z.pow_pos_nonneg; lia).
    assert (HP : 0 < 2 ^ s) by (apply Z.pow_pos_nonneg; lia).
    assert (Hq0 : 0 <= M / 2 ^ s) by (apply Z.div_pos; lia).
    assert (Hlt : q' * 2 ^ s < n * 2 ^ k).
    { assert (2 ^ (s - 1) < n) by (unfold M in *; nia). unfold M in *. nia. }
    unfold Double.floor. cbn [Double.significand Double.scale].
    destruct (Z.leb_spec 0 (k - s)) as [Hks | Hks].
    + assert (E : 2 ^ k = 2 ^ (k - s) * 2 ^ s).
      { rewrite <- Z.pow_add_r by lia. f_equal. lia. }
      assert (Hc : 0 < 2 ^ (k - s)) by (apply Z.pow_pos_nonneg; lia).
      split; [apply Z.div_pos; lia|].
      apply Z.div_lt_upper_bound; [lia|]. nia.
    + assert (E : 2 ^ s = 2 ^ (- (k - s)) * 2 ^ k).
      { rewrite <- Z.pow_add_r by lia. f_equal. lia. }
      assert (Hc : 0 < 2 ^ (- (k - s))) by (apply Z.pow_pos_nonneg; lia).
      split; [nia|]. nia.
Qed.

Lemma pow2_lt_exponent (a b : Z) : 0 <= b -> 2 ^ a < 2 ^ b -> a < b.
Proof.
  intros Hb H. destruct (Z.lt_ge_cases a b) as [|Hge]; [assumption|].
  exfalso. pose proof (Z.pow_le_mono_r 2 b a ltac:(lia) Hge). lia.
Qed.

Lemma times_near_exact (m k n : Z) :
  0 <= m -> 0 <= k -> 0 <= n -> m * n < 2 ^ 53 * 2 ^ k ->
  (m * n) / 2 ^ k <= Double.floor (Double.times (Double.mk m k) n)
  <= (m * n) / 2 ^ k + 1.
Proof.
  intros Hm Hk Hn Hsmall. unfold Double.times. cbn [Double.significand Double.scale].
  set (M := m * n) in *. set (s := Z.log2 M + 1 - 53).
  assert (HM : 0 <= M) by (unfold M; nia).
  destruct (Z.leb_spec s 0) as [Hs | Hs].
  - unfold Double.floor. cbn [Double.significand Double.scale].
    destruct (Z.leb_spec 0 k); lia.
  - destruct (roundNearestEven_bounds M s HM ltac:(lia)) as [[Hq Hq1] _].
    destruct (log2_window M s eq_refl ltac:(lia)) as [Hlo _].
    set (q' := Double.roundNearestEven M s) in *.
    assert (Hsk : s - 1 < k).
    { apply pow2_lt_exponent; [assumption|].
      pose proof (Z.pow_pos_nonneg 2 53 ltac:(lia) ltac:(lia)). nia. }
    unfold Double.floor. cbn [Double.significand Double.scale].
    destruct (Z.leb_spec 0 (k - s)); [|lia].
    assert (Hc : 0 < 2 ^ (k - s)) by (apply Z.pow_pos_nonneg; lia).
    assert (HP : 0 < 2 ^ s) by (apply Z.pow_pos_nonneg; lia).
    assert (E : M / 2 ^ k = M / 2 ^ s / 2 ^ (k - s)).
    { rewrite Z.div_div by lia. rewrite <- Z.pow_add_r by lia.
      f_equal. f_equal. lia. }
    rewrite E. split.
    + apply Z.div_le_mono; lia.
    + transitivity ((M / 2 ^ s + 1 * 2 ^ (k - s)) / 2 ^ (k - s)).
      * apply Z.div_le_mono; lia.
      * rewrite Z.div_add by lia. lia.
Qed.

Lemma slot_reachable (n j : Z) :
  0 <= j < n -> n <= 2 ^ 52 ->
  let m := (j * 2 ^ 53 + n - 1) / n in
  0 <= m < 2 ^ 53
  /\ Double.floor (Double.times (Double.mk m 53) n) = j.
Proof.
  intros Hj Hn m.
  pose proof (Z.div_mod (j * 2 ^ 53 + n - 1) n ltac:(lia)) as Hdm.
  pose proof (Z.mod_pos_bound (j * 2 ^ 53 + n - 1) n ltac:(lia)) as Hmod.
  fold m in Hdm. set (t := (j * 2 ^ 53 + n - 1) mod n) in *.
  assert (H53 : 2 ^ 53 = 2 * 2 ^ 52) by reflexivity.
  assert (H52 : 0 < 2 ^ 52) by reflexivity.
  assert (Hlo : j * 2 ^ 53 <= m * n) by nia.
  assert (Hhi : m * n <= j * 2 ^ 53 + n - 1) by nia.
  assert (Hm : 0 <= m < 2 ^ 53) by nia.
  split; [exact Hm|].
  assert (HF : (m * n) / 2 ^ 53 = j).
  { symmetry. apply (Z.div_unique _ _ j (m * n - j * 2 ^ 53)); lia. }
  pose proof (times_near_exact m 53 n ltac:(lia) ltac:(lia) ltac:(lia) ltac:(nia))
    as [Hge _].
  rewrite HF in Hge.
  enough (Double.floor (Double.times (Double.mk m 53) n) < j + 1) by lia.
  unfold Double.times. cbn [Double.significand Double.scale].
  set (M := m * n) in *. set (s := Z.log2 M + 1 - 53).
  destruct (Z.leb_spec s 0) as [Hs | Hs].
  - unfold Double.floor. cbn [Double.significand Double.scale].
    change (0 <=? 53) with true. cbv iota. lia.
  - destruct (roundNearestEven_bounds M s ltac:(lia) ltac:(lia)) as [_ Hup].
    destruct (log2_window M s eq_refl ltac:(lia)) as [Hwin _].
    set (q' := Double.roundNearestEven M s) in *.
    assert (Hs52 : s - 1 < 52).
    { apply pow2_lt_exponent; [lia|]. nia. }
    assert (Hhalf : 2 ^ (s - 1) <= 2 ^ 51) by (apply Z.pow_le_mono_r; lia).
    assert (H51 : 2 ^ 52 = 2 * 2 ^ 51) by reflexivity.
    unfold Double.floor. cbn [Double.significand Double.scale].
    destruct (Z.leb_spec 0 (53 - s)); [|lia].
    assert (Hc : 0 < 2 ^ (53 - s)) by (apply Z.pow_pos_nonneg; lia).
    assert (HP : 0 < 2 ^ s) by (apply Z.pow_pos_nonneg; lia).
    assert (E : 2 ^ 53 = 2 ^ (53 - s) * 2 ^ s).
    { rewrite <- Z.pow_add_r by lia. f_equal. lia. }
    apply Z.div_lt_upper_bound; [lia|].
    assert (q' * 2 ^ s < (j + 1) * 2 ^ 53) by lia.
    rewrite E in H0. nia.
Qed.

Lemma times_nonneg (x : Double.t) (n : Z) :
  0 <= Double.significand x -> 0 <= n ->
  0 <= Double.floor (Double.times x n).
Proof.
  intros Hm Hn. unfold Double.times.
  set (M := Double.significand x * n). set (s := Z.log2 M + 1 - 53).
  assert (HM : 0 <= M) by (unfold M; nia).
  assert (Hfloor : forall q k, 0 <= q -> 0 <= Double.floor (Double.mk q k)).
  { intros q k Hq. unfold Double.floor. cbn [Double.significand Double.scale].
    destruct (Z.leb_spec 0 k).
    - apply Z.div_pos; [assumption | apply Z.pow_pos_nonneg; lia].
    - pose proof (Z.pow_pos_nonneg 2 (- k) ltac:(lia) ltac:(lia)). nia. }
  destruct (Z.leb_spec s 0) as [Hs | Hs]; apply Hfloor; [exact HM|].
  destruct (roundNearestEven_bounds M s HM ltac:(lia)) as [[Hq _] _].
  pose proof (Z.pow_pos_nonneg 2 s ltac:(lia) ltac:(lia)).
  pose proof (Z.div_pos M (2 ^ s) HM ltac:(lia)). lia.
Qed.

Lemma randomIndex_range (r : Double.t) (n : nat) :
  isRandomValue r -> (0 < n)%nat ->
  0 <= randomIndex r n < Z.of_nat n.
Proof.
  intros (Hm & Hmk & Hk) Hn. unfold randomIndex. destruct r as [m k].
  cbn [Double.significand Double.scale] in *.
  apply times_below; lia.
Qed.



Lemma randomIndex_slot (n slot : nat) :
  (slot < n)%nat -> Z.of_nat n < 2 ^ 32 ->
  exists r, isRandomValue r /\ randomIndex r n = Z.of_nat slot.
Proof.
  intros Hslot Hn.
  assert (H32 : 2 ^ 32 < 2 ^ 52) by reflexivity.
  destruct (slot_reachable (Z.of_nat n) (Z.of_nat slot) ltac:(lia) ltac:(lia))
    as [Hm Hidx].
  exists (Double.mk ((Z.of_nat slot * 2 ^ 53 + Z.of_nat n - 1) / Z.of_nat n) 53).
  split; [|exact Hidx].
  unfold isRandomValue. cbn [Double.significand Double.scale]. lia.
Qed.

(** [Double.times] against the reference multiplication of binary64. *)
Example times_agrees_with_reference :
  forallb (fun '(m, k, n) =>
             match referenceIndex m k n with
             | Some index =>
                 index =? Double.floor (Double.times (Double.mk m k) n)
             | None => false
             end)
          [(8556839292003942, 53, 11); (8188362958855447, 53, 11);
           (3752999689475413, 52, 12); (183825846037901, 53, 49);
           (6004799503160661, 54, 3); (1, 1074, 3); (3, 1074, 2 ^ 31);
           (2 ^ 53 - 1, 53, 49); (2 ^ 53 - 1, 53, 4294967295);
           (2 ^ 52 + 1, 60, 4294967295); (2 ^ 53 - 1, 1000, 7);
           (4503599627370497, 53, 6); (4503599627370499, 53, 6);
           (4503599627370497, 53, 10); (4503599627370499, 53, 10);
           (5, 3, 13); (0, 1, 50)]
  = true.
Proof. vm_compute. reflexivity. Qed.

Lemma totalWeight_pos (items : list MealWeight.t) :
  items <> [] -> positiveWeights items -> 0 < totalWeight items.
Proof.
  intros Hne Hpos. destruct Hpos as [|item items Hitem Hrest]; [congruence|].
  simpl. assert (0 <= totalWeight items).
  { clear Hne Hitem. induction Hrest; simpl; lia. }
  lia.
Qed.

Lemma chosenMeal_in_range (items : list MealWeight.t) (r : Double.t) :
  items <> [] -> positiveWeights items -> isRandomValue r ->
  exists meal,
    chosenMeal items r = Some meal
    /\ nth_error (weightedList items)
                 (Z.to_nat (randomIndex r (length (weightedList items))))
       = Some meal.
Proof.
  intros Hne Hpos Hr.
  pose proof (totalWeight_pos items Hne Hpos) as HT.
  rewrite <- weightedList_length in HT by assumption.
  assert (HL : (0 < length (weightedList items))%nat) by lia.
  pose proof (randomIndex_range r _ Hr HL) as [Hlo Hhi].
  unfold chosenMeal, at_index. cbv zeta.
  destruct (Z.ltb_spec (randomIndex r (length (weightedList items))) 0); [lia|].
  destruct (nth_error (weightedList items)
              (Z.to_nat (randomIndex r (length (weightedList items))))) eqn:E.
  - eauto.
  - apply nth_error_None in E. lia.
Qed.




(** ** The scenario: Tacos and Pizza, Pizza eaten two days ago *)

Section Scenario.
Let Tacos : JSString := str "Tacos".
Let Pizza : JSString := str "Pizza".
Let meals : list JSString := [Tacos; Pizza].

Lemma scenario_weights (now : Z) :
  RECENT_DAYS_MS <= now ->
  mealWeights meals [HistoryItem.mk Pizza (now - 2 * day_ms)] now
  = [MealWeight.mk Tacos 10; MealWeight.mk Pizza 1].
Proof.
  intros Hnow. unfold mealWeights, meals. cbn [map]. unfold weigh.
  change (lastEaten [HistoryItem.mk Pizza (now - 2 * day_ms)] Tacos) with 0.
  change (lastEaten [HistoryItem.mk Pizza (now - 2 * day_ms)] Pizza)
    with (Z.max 0 (now - 2 * day_ms)).
  unfold isRecent.
  destruct (Z.ltb_spec (now - 0) RECENT_DAYS_MS); [lia|].
  destruct (Z.ltb_spec (now - Z.max 0 (now - 2 * day_ms)) RECENT_DAYS_MS).
  - reflexivity.
  - exfalso. unfold RECENT_DAYS_MS, day_ms in *. lia.
Qed.

End Scenario.

(** ** The whole pick *)

Lemma map_repeat_item {A B : Type} (f : A -> B) (a : A) (n : nat) :
  map f (repeat a n) = repeat (f a) n.
Proof. induction n as [|n IH]; simpl; congruence. Qed.

Lemma weightedList_itemPool (items : list MealWeight.t) :
  weightedList items = map MealWeight.meal (itemPool items).
Proof.
  rewrite weightedList_flat_map. unfold itemPool.
  induction items as [|item items IH]; simpl; [reflexivity|].
  rewrite map_app, map_repeat_item, IH. reflexivity.
Qed.

Lemma itemPool_In (items : list MealWeight.t) (item : MealWeight.t) :
  In item (itemPool items) -> In item items.
Proof.
  unfold itemPool. rewrite in_flat_map. intros (x & Hx & Hrep).
  apply repeat_spec in Hrep. now subst.
Qed.

Lemma chosenMeal_selectedItem (items : list MealWeight.t) (r : Double.t) :
  chosenMeal items r = option_map MealWeight.meal (selectedItem items r).
Proof.
  unfold chosenMeal, selectedItem, at_index. cbv zeta.
  rewrite weightedList_itemPool, length_map.
  destruct (_ <? 0); [reflexivity|]. apply nth_error_map.
Qed.

Lemma selectedItem_In (items : list MealWeight.t) (r : Double.t) (item : MealWeight.t) :
  selectedItem items r = Some item -> In item items.
Proof.
  unfold selectedItem, at_index. destruct (_ <? 0); [discriminate|].
  intros H. apply nth_error_In in H. now apply itemPool_In.
Qed.

Lemma weightInfo_mealWeights (meals : list JSString)
    (history : list HistoryItem.t) (now : Z) (meal : JSString) :
  In meal meals ->
  weightInfo (mealWeights meals history now) meal = Some (weigh history now meal).
Proof.
  unfold weightInfo, mealWeights.
  induction meals as [|m meals IH]; simpl; [contradiction|].
  intros Hin. destruct (strictEq m meal) eqn:E.
  - apply strictEq_true_iff in E. now subst.
  - apply strictEq_false_iff in E. destruct Hin as [->|Hin]; [congruence|].
    now apply IH.
Qed.

Lemma mealWeights_In (meals : list JSString) (history : list HistoryItem.t)
    (now : Z) (item : MealWeight.t) :
  In item (mealWeights meals history now) ->
  In (MealWeight.meal item) meals
  /\ item = weigh history now (MealWeight.meal item).
Proof.
  unfold mealWeights. rewrite in_map_iff. intros (m & <- & Hin). auto.
Qed.

Lemma mealWeights_positive (meals : list JSString)
    (history : list HistoryItem.t) (now : Z) :
  positiveWeights (mealWeights meals history now).
Proof.
  unfold positiveWeights, mealWeights. apply Forall_map, Forall_forall.
  intros m _. destruct (weigh_weight_cases history now m) as [-> | ->]; lia.
Qed.

Lemma length_zero_eqb {A : Type} (l : list A) :
  (length l =? 0)%nat = false <-> l <> [].
Proof.
  destruct l; simpl; split; intros; congruence.
Qed.

(** What a pick from a non-empty meal list returns and displays. *)
Lemma pickWeightedMeal_nonempty (st : Page) (now : Z) (r : Double.t) :
  loadMeals st <> [] -> isRandomValue r ->
  let items := mealWeights (loadMeals st) (loadHistory st) now in
  exists item,
    selectedItem items r = Some item
    /\ In item items
    /\ pickWeightedMeal st now r
       = (Return (Some (MealWeight.meal item)),
          if MealWeight.weight item =? 1
          then set_pickerMessage st (reducedChanceNote (MealWeight.meal item))
          else set_pickerMessage st []).
Proof.
  intros Hne Hr items.
  assert (Hitems : items <> []).
  { unfold items, mealWeights. destruct (loadMeals st); [congruence | discriminate]. }
  destruct (chosenMeal_in_range items r Hitems
              (mealWeights_positive _ _ _) Hr) as (m & Hchosen & _).
  pose proof Hchosen as Hsel. rewrite chosenMeal_selectedItem in Hsel.
  destruct (selectedItem items r) as [item|] eqn:Eitem; [|discriminate].
  simpl in Hsel. injection Hsel as <-.
  pose proof (selectedItem_In _ _ _ Eitem) as Hin.
  destruct (mealWeights_In _ _ _ _ Hin) as [Hmeal Hweigh].
  exists item. split; [reflexivity|]. split; [assumption|].
  unfold pickWeightedMeal. cbv zeta.
  rewrite (proj2 (length_zero_eqb _) Hne).
  fold items. rewrite Hchosen.
  unfold items. rewrite weightInfo_mealWeights by assumption.
  rewrite <- Hweigh. destruct (MealWeight.weight item =? 1); reflexivity.
Qed.

(** C1, as the code has it.  With meals Tacos and Pizza, Pizza eaten two days
    before [now], and a clock at least 30 days past the epoch, the weights
    are Tacos 10 and Pizza 1, the array is ten times Tacos followed by Pizza,
    and the random value 0.95 gives index [floor (0.95 * 11) = 10], the last
    slot: the pick returns Pizza and shows the reduced-chance note. *)
Theorem scenario_tacos_pizza (now : Z) :
  RECENT_DAYS_MS <= now ->
  let meals := [str "Tacos"; str "Pizza"] in
  let history := [HistoryItem.mk (str "Pizza") (now - 2 * day_ms)] in
  let items := mealWeights meals history now in
  items = [MealWeight.mk (str "Tacos") 10; MealWeight.mk (str "Pizza") 1]
  /\ weightedList items = repeat (str "Tacos") 10 ++ [str "Pizza"]
  /\ randomIndex double_0_95 (length (weightedList items)) = 10
  /\ chosenMeal items double_0_95 = Some (str "Pizza")
  /\ (forall st, loadMeals st = meals -> loadHistory st = history ->
        pickWeightedMeal st now double_0_95
        = (Return (Some (str "Pizza")),
           set_pickerMessage st (reducedChanceNote (str "Pizza")))).
Proof.
  intros Hnow meals history items.
  assert (Hitems : items = [MealWeight.mk (str "Tacos") 10;
                            MealWeight.mk (str "Pizza") 1])
    by exact (scenario_weights now Hnow).
  split; [exact Hitems|]. rewrite Hitems.
  split; [reflexivity|]. split; [vm_compute; reflexivity|].
  split; [vm_compute; reflexivity|].
  intros st Hm Hh. unfold pickWeightedMeal. rewrite Hm, Hh. cbv zeta.
  change (length meals =? 0)%nat with false. cbv iota.
  fold items. rewrite Hitems.
  change (chosenMeal [MealWeight.mk (str "Tacos") 10;
                      MealWeight.mk (str "Pizza") 1] double_0_95)
    with (Some (str "Pizza")).
  reflexivity.
Qed.

Lemma scenario_tacos_pizza_witness :
  RECENT_DAYS_MS <= 1700000000000
  /\ mealWeights [str "Tacos"; str "Pizza"]
       [HistoryItem.mk (str "Pizza") (1700000000000 - 2 * day_ms)] 1700000000000
     = [MealWeight.mk (str "Tacos") 10; MealWeight.mk (str "Pizza") 1]
  /\ chosenMeal
       (mealWeights [str "Tacos"; str "Pizza"]
          [HistoryItem.mk (str "Pizza") (1700000000000 - 2 * day_ms)]
          1700000000000) double_0_95
     = Some (str "Pizza").
Proof.
  assert (Hnow : RECENT_DAYS_MS <= 1700000000000) by (vm_compute; discriminate).
  split; [exact Hnow|].
  destruct (scenario_tacos_pizza 1700000000000 Hnow) as (Hw & _ & _ & Hc & _).
  split; [exact Hw | exact Hc].
Defined.

(** The double [double_0_95] is the one nearest to 95/100: it is within half
    a unit in the last place, [2 ^ (-54)], of it. *)
Example double_0_95_nearest :
  isRandomValue double_0_95
  /\ (Qabs (Double.toQ double_0_95 - (95 # 100)) <= 1 # (2 ^ 54))%Q.
Proof.
  split; [unfold isRandomValue; simpl; lia|]. vm_compute. discriminate.
Qed.

(** C1 as stated fails: with the random value 0.95 the pick returns Pizza,
    not Tacos. *)
Lemma scenario_selects_tacos_counterexample :
  let now := 1700000000000 in
  let st := mkPage (Some [str "Tacos"; str "Pizza"])
                   (Some [HistoryItem.mk (str "Pizza") (now - 2 * day_ms)])
                   None [] [] [] true false [] in
  mealWeights (loadMeals st) (loadHistory st) now
  = [MealWeight.mk (str "Tacos") 10; MealWeight.mk (str "Pizza") 1]
  /\ length (weightedList (mealWeights (loadMeals st) (loadHistory st) now))
     = 11%nat
  /\ randomIndex double_0_95 11 = 10
  /\ fst (pickWeightedMeal st now double_0_95) = Return (Some (str "Pizza"))
  /\ fst (pickWeightedMeal st now double_0_95) <> Return (Some (str "Tacos")).
Proof.
  cbv zeta. repeat split; try reflexivity.
  vm_compute. discriminate.
Qed.

(** C3.  With an empty meal list the pick never returns a meal: it returns
    [null] and prompts for meals, whatever the history, the clock and the
    random value; no pick is pending afterwards, so a confirmation records
    nothing. *)
Theorem pickWeightedMeal_empty (st : Page) (now : Z) (r : Double.t) :
  loadMeals st = [] ->
  pickWeightedMeal st now r
  = (Return None, set_pickerMessage st (str "Please add some meals first!"))
  /\ (forall meal, fst (pickWeightedMeal st now r) <> Return (Some meal))
  /\ currentPickedMeal (displayPickedMeal st now r) = None
  /\ (forall now', confirmMeal (displayPickedMeal st now r) now'
                   = displayPickedMeal st now r)
  /\ loadHistory (displayPickedMeal st now r) = loadHistory st.
Proof.
  intros Hempty.
  assert (Hpick : pickWeightedMeal st now r
                  = (Return None,
                     set_pickerMessage st (str "Please add some meals first!"))).
  { unfold pickWeightedMeal. rewrite Hempty. reflexivity. }
  split; [exact Hpick|].
  split; [intros meal; rewrite Hpick; discriminate|].
  unfold displayPickedMeal. rewrite Hpick. cbv zeta iota beta.
  repeat split.
Qed.

Lemma pickWeightedMeal_empty_witness :
  let st := mkPage (Some []) (Some [HistoryItem.mk (str "Pizza") 5]) None
                   [] [] [] true false [] in
  loadMeals st = []
  /\ fst (pickWeightedMeal st 1700000000000 double_0_5) = Return None.
Proof.
  intros st. assert (H : loadMeals st = []) by reflexivity.
  split; [exact H|].
  destruct (pickWeightedMeal_empty st 1700000000000 double_0_5 H) as [-> _].
  reflexivity.
Defined.

Lemma reducedChanceNote_not_empty (meal : JSString) :
  reducedChanceNote meal <> [].
Proof. discriminate. Qed.

(** C5.  For a non-empty meal list and a random value in [[0,1)], the pick
    returns the name of the weighted meal whose slot the draw hits, and the
    reduced-chance note is displayed if and only if the weight of that
    weighted meal is 1; otherwise the message stays empty. *)
Theorem wasPenalized_iff_weight_1 (st : Page) (now : Z) (r : Double.t) :
  loadMeals st <> [] -> isRandomValue r ->
  let items := mealWeights (loadMeals st) (loadHistory st) now in
  exists item,
    selectedItem items r = Some item
    /\ In item items
    /\ fst (pickWeightedMeal st now r) = Return (Some (MealWeight.meal item))
    /\ (pickerMessage (snd (pickWeightedMeal st now r))
        = reducedChanceNote (MealWeight.meal item)
        <-> MealWeight.weight item = 1)
    /\ (pickerMessage (snd (pickWeightedMeal st now r)) = []
        <-> MealWeight.weight item <> 1).
Proof.
  intros Hne Hr items.
  destruct (pickWeightedMeal_nonempty st now r Hne Hr)
    as (item & Hsel & Hin & Hpick).
  exists item. split; [exact Hsel|]. split; [exact Hin|].
  rewrite Hpick. split; [reflexivity|].
  pose proof (reducedChanceNote_not_empty (MealWeight.meal item)) as Hnote.
  destruct (Z.eqb_spec (MealWeight.weight item) 1) as [E | E]; simpl.
  - split; split; intros; congruence.
  - split; split; intros; congruence.
Qed.

Lemma wasPenalized_iff_weight_1_witness :
  let st := mkPage (Some [str "Tacos"; str "Pizza"])
                   (Some [HistoryItem.mk (str "Pizza") 1699827200000])
                   None [] [] [] true false [] in
  (loadMeals st <> [] /\ isRandomValue double_0_95)
  /\ exists item,
       selectedItem (mealWeights (loadMeals st) (loadHistory st) 1700000000000)
                    double_0_95 = Some item
       /\ (pickerMessage (snd (pickWeightedMeal st 1700000000000 double_0_95))
           = reducedChanceNote (MealWeight.meal item)
           <-> MealWeight.weight item = 1).
Proof.
  intros st.
  assert (Hne : loadMeals st <> []) by discriminate.
  assert (Hr : isRandomValue double_0_95) by (unfold isRandomValue; simpl; lia).
  split; [split; assumption|].
  destruct (wasPenalized_iff_weight_1 st 1700000000000 double_0_95 Hne Hr)
    as (item & Hsel & _ & _ & Hflag & _).
  exists item. split; [exact Hsel | exact Hflag].
Defined.

(** ** Weights are a function of the stored data and the clock *)

Lemma pickWeightedMeal_storage (st : Page) (now : Z) (r : Double.t) :
  stored_mealList (snd (pickWeightedMeal st now r)) = stored_mealList st
  /\ stored_history (snd (pickWeightedMeal st now r)) = stored_history st
  /\ currentPickedMeal (snd (pickWeightedMeal st now r)) = currentPickedMeal st.
Proof.
  unfold pickWeightedMeal. cbv zeta.
  destruct (length (loadMeals st) =? 0)%nat; [repeat split|].
  destruct (chosenMeal _ r) as [chosen|]; [|repeat split].
  destruct (weightInfo _ chosen) as [info|]; [|repeat split].
  destruct (MealWeight.weight info =? 1); repeat split.
Qed.

(** C9.  The weights a pick computes are a function of the stored meal list,
    the stored history and the clock alone: a pick leaves both stored values
    as they were, so a second pick at the same [now] computes the same
    sequence of weighted meals, whatever the two random values and whatever
    the first pick displayed; and no other field of the page enters the
    computation. *)
Theorem mealWeights_idempotent (st : Page) (now : Z) (r1 r2 : Double.t) :
  let st1 := snd (pickWeightedMeal st now r1) in
  let st2 := snd (pickWeightedMeal st1 now r2) in
  stored_mealList st1 = stored_mealList st
  /\ stored_history st1 = stored_history st
  /\ mealWeights (loadMeals st1) (loadHistory st1) now
     = mealWeights (loadMeals st) (loadHistory st) now
  /\ mealWeights (loadMeals st2) (loadHistory st2) now
     = mealWeights (loadMeals st) (loadHistory st) now
  /\ (forall picked input message display hidden1 hidden2 alerted,
        let other := mkPage (stored_mealList st) (stored_history st) picked
                            input message display hidden1 hidden2 alerted in
        mealWeights (loadMeals other) (loadHistory other) now
        = mealWeights (loadMeals st) (loadHistory st) now).
Proof.
  intros st1 st2.
  destruct (pickWeightedMeal_storage st now r1) as (Hm1 & Hh1 & _).
  destruct (pickWeightedMeal_storage st1 now r2) as (Hm2 & Hh2 & _).
  fold st1 in Hm1, Hh1. fold st2 in Hm2, Hh2.
  assert (E1 : loadMeals st1 = loadMeals st) by (unfold loadMeals; now rewrite Hm1).
  assert (E2 : loadHistory st1 = loadHistory st) by (unfold loadHistory; now rewrite Hh1).
  assert (E3 : loadMeals st2 = loadMeals st1) by (unfold loadMeals; now rewrite Hm2).
  assert (E4 : loadHistory st2 = loadHistory st1) by (unfold loadHistory; now rewrite Hh2).
  split; [exact Hm1|]. split; [exact Hh1|].
  split; [now rewrite E1, E2|].
  split; [now rewrite E3, E4, E1, E2|].
  reflexivity.
Qed.

(** ** The history filter *)

Section SortByDate.
Let compare (a b : HistoryItem.t) : Z := HistoryItem.date b - HistoryItem.date a.

Lemma sortInsert_perm (a : HistoryItem.t) (l : list HistoryItem.t) :
  Permutation (sortInsert compare a l) (a :: l).
Proof.
  induction l as [|b l IH]; simpl; [reflexivity|].
  destruct (compare a b <=? 0); [reflexivity|].
  rewrite IH. apply perm_swap.
Qed.

Lemma sort_perm (l : list HistoryItem.t) : Permutation (sort compare l) l.
Proof.
  induction l as [|a l IH]; simpl; [reflexivity|].
  rewrite sortInsert_perm. now constructor.
Qed.

Lemma sortInsert_sorted (a : HistoryItem.t) (l : list HistoryItem.t) :
  StronglySorted notOlder l -> StronglySorted notOlder (sortInsert compare a l).
Proof.
  induction 1 as [|b l Hsorted IH Hall]; simpl.
  - repeat constructor.
  - destruct (Z.leb_spec (compare a b) 0) as [Hle | Hgt].
    + constructor; [now constructor|].
      constructor; [unfold notOlder, compare in *; lia|].
      eapply Forall_impl; [|exact Hall].
      intros c Hc. unfold notOlder, compare in *. lia.
    + constructor; [exact IH|].
      apply (Permutation_Forall (Permutation_sym (sortInsert_perm a l))).
      constructor; [unfold notOlder, compare in *; lia | exact Hall].
Qed.

Lemma sort_sorted (l : list HistoryItem.t) :
  StronglySorted notOlder (sort compare l).
Proof.
  induction l as [|a l IH]; simpl; [constructor|].
  now apply sortInsert_sorted.
Qed.

Lemma sortInsert_stable (d : Z) (a : HistoryItem.t) (l : list HistoryItem.t) :
  filter (fun item => HistoryItem.date item =? d) (sortInsert compare a l)
  = filter (fun item => HistoryItem.date item =? d) (a :: l).
Proof.
  induction l as [|b l IH]; [reflexivity|].
  cbn [sortInsert]. destruct (Z.leb_spec (compare a b) 0) as [Hle | Hgt];
    [reflexivity|].
  cbn [filter] in *. rewrite IH.
  destruct (Z.eqb_spec (HistoryItem.date a) d) as [Ea | Ea];
    destruct (Z.eqb_spec (HistoryItem.date b) d) as [Eb | Eb];
    try reflexivity.
  exfalso. unfold compare in Hgt. lia.
Qed.

Lemma sort_stable (d : Z) (l : list HistoryItem.t) :
  filter (fun item => HistoryItem.date item =? d) (sort compare l)
  = filter (fun item => HistoryItem.date item =? d) l.
Proof.
  induction l as [|a l IH]; [reflexivity|].
  cbn [sort]. rewrite sortInsert_stable. cbn [filter]. now rewrite IH.
Qed.
End SortByDate.

(** C6.  [recentHistory] is the first ten entries of the arrangement of the
    entries with [date > now - 30 days] that is a permutation of them, runs
    from most recent to least recent, and keeps entries of equal date in
    their original order; it never has more than ten entries. *)
Theorem recentHistory_spec (history : list HistoryItem.t) (now : Z) :
  let recent :=
    filter (fun item => now - RECENT_DAYS_MS <? HistoryItem.date item) history in
  let sorted := recentSorted history now in
  recentHistory history now = firstn 10 sorted
  /\ Permutation sorted recent
  /\ (forall item, In item sorted
                   <-> In item history
                       /\ now - RECENT_DAYS_MS < HistoryItem.date item)
  /\ StronglySorted notOlder sorted
  /\ (forall d, filter (fun item => HistoryItem.date item =? d) sorted
                = filter (fun item => HistoryItem.date item =? d) recent)
  /\ length (recentHistory history now) = Nat.min 10 (length recent)
  /\ (length (recentHistory history now) <= 10)%nat.
Proof.
  intros recent sorted.
  assert (Hperm : Permutation sorted recent) by apply sort_perm.
  split; [reflexivity|]. split; [exact Hperm|].
  split.
  { intros item. split.
    - intros Hin. apply (Permutation_in _ Hperm) in Hin.
      apply filter_In in Hin. destruct Hin as [Hin Hlt]. split; [assumption|].
      now apply Z.ltb_lt.
    - intros [Hin Hlt]. apply (Permutation_in _ (Permutation_sym Hperm)).
      apply filter_In. split; [assumption|]. now apply Z.ltb_lt. }
  split; [apply sort_sorted|].
  split; [intros d; apply sort_stable|].
  split.
  - unfold recentHistory, slice0. rewrite length_firstn.
    fold sorted. now rewrite (Permutation_length Hperm).
  - unfold recentHistory, slice0. rewrite length_firstn. apply Nat.le_min_l.
Qed.

(** The four entries of the specification's example, out of order in the
    log: the two recent ones come back, most recent first. *)
Example recentHistory_example :
  let now := 1700000000000 in
  recentHistory [HistoryItem.mk (str "Tacos") (now - 1 * day_ms);
                 HistoryItem.mk (str "Sushi") (now - 40 * day_ms);
                 HistoryItem.mk (str "Steak") (now - 5 * day_ms);
                 HistoryItem.mk (str "Pizza") (now - 31 * day_ms)] now
  = [HistoryItem.mk (str "Tacos") (now - 1 * day_ms);
     HistoryItem.mk (str "Steak") (now - 5 * day_ms)].
Proof. reflexivity. Qed.

(** ** Trimming *)

Lemma trimStart_split (s : JSString) :
  exists lead, s = lead ++ trimStart s /\ allWhiteSpace lead.
Proof.
  induction s as [|c s (lead & Hs & Hlead)]; simpl.
  - exists []. split; [reflexivity | constructor].
  - destruct (isWhiteSpace c) eqn:E.
    + exists (c :: lead). split; [simpl; congruence | now constructor].
    + exists []. split; [reflexivity | constructor].
Qed.

Lemma trimStart_noLeading (s : JSString) : noLeadingWhiteSpace (trimStart s).
Proof.
  induction s as [|c s IH]; simpl; [exact I|].
  destruct (isWhiteSpace c) eqn:E; [exact IH | exact E].
Qed.

Lemma trimStart_allWhiteSpace (s : JSString) :
  allWhiteSpace s -> trimStart s = [].
Proof.
  induction 1 as [|c s Hc _ IH]; simpl; [reflexivity|]. now rewrite Hc.
Qed.

Lemma trimStart_fixed (s : JSString) : noLeadingWhiteSpace s -> trimStart s = s.
Proof.
  destruct s as [|c s]; simpl; [reflexivity|]. now intros ->.
Qed.

Lemma trimEnd_split (s : JSString) :
  exists trail, s = trimEnd s ++ trail /\ allWhiteSpace trail.
Proof.
  destruct (trimStart_split (rev s)) as (lead & Hs & Hlead).
  exists (rev lead). split.
  - unfold trimEnd. rewrite <- rev_app_distr, <- Hs. now rewrite rev_involutive.
  - unfold allWhiteSpace in *. now apply Forall_rev.
Qed.

Lemma trimEnd_noTrailing (s : JSString) : noTrailingWhiteSpace (trimEnd s).
Proof.
  unfold noTrailingWhiteSpace, trimEnd. rewrite rev_involutive.
  apply trimStart_noLeading.
Qed.

Lemma trimEnd_noLeading (s : JSString) :
  noLeadingWhiteSpace s -> noLeadingWhiteSpace (trimEnd s).
Proof.
  intros H. destruct (trimEnd_split s) as (trail & Hs & _).
  destruct (trimEnd s) as [|c t]; [exact I|].
  rewrite Hs in H. exact H.
Qed.

Lemma trim_split (s : JSString) :
  exists lead trail,
    s = lead ++ trim s ++ trail /\ allWhiteSpace lead /\ allWhiteSpace trail.
Proof.
  destruct (trimStart_split s) as (lead & Hs & Hlead).
  destruct (trimEnd_split (trimStart s)) as (trail & Ht & Htrail).
  exists lead, trail. unfold trim. rewrite <- Ht. auto.
Qed.

Lemma trim_noLeading (s : JSString) : noLeadingWhiteSpace (trim s).
Proof. apply trimEnd_noLeading, trimStart_noLeading. Qed.

Lemma trim_noTrailing (s : JSString) : noTrailingWhiteSpace (trim s).
Proof. apply trimEnd_noTrailing. Qed.

Lemma trim_allWhiteSpace (s : JSString) : allWhiteSpace s -> trim s = [].
Proof.
  intros H. unfold trim. now rewrite (trimStart_allWhiteSpace s H).
Qed.

Lemma trim_empty_allWhiteSpace (s : JSString) : trim s = [] -> allWhiteSpace s.
Proof.
  intros H. destruct (trim_split s) as (lead & trail & Hs & Hlead & Htrail).
  rewrite H in Hs. rewrite Hs. apply Forall_app. auto.
Qed.

(** ** The meal list *)

Lemma defaultMeals_NoDup : NoDup defaultMeals.
Proof.
  unfold defaultMeals.
  repeat (constructor; [simpl; intuition discriminate|]). constructor.
Qed.

Lemma addMeal_loadMeals (st : Page) :
  let newMeal := trim (newMealInput st) in
  loadMeals (addMeal st)
  = if truthy (Some newMeal) && negb (includes (loadMeals st) newMeal)
    then loadMeals st ++ [newMeal]
    else loadMeals st.
Proof.
  intros newMeal. unfold addMeal. fold newMeal.
  destruct (truthy (Some newMeal)); [|reflexivity].
  destruct (includes (loadMeals st) newMeal); reflexivity.
Qed.

Lemma truthy_nonempty (s : JSString) : truthy (Some s) = true <-> s <> [].
Proof. destruct s; simpl; split; congruence. Qed.

Lemma NoDup_snoc {A : Type} (l : list A) (a : A) :
  NoDup l -> ~ In a l -> NoDup (l ++ [a]).
Proof.
  intros Hnd Hnot. apply NoDup_app; [assumption | repeat constructor; auto |].
  intros x Hx [<- | []]. contradiction.
Qed.

Lemma addMeal_NoDup (st : Page) :
  NoDup (loadMeals st) -> NoDup (loadMeals (addMeal st)).
Proof.
  intros Hnd. rewrite addMeal_loadMeals. cbv zeta.
  destruct (truthy _); [|assumption]. simpl.
  destruct (includes (loadMeals st) (trim (newMealInput st))) eqn:E;
    [assumption|]. simpl.
  apply NoDup_snoc; [assumption|].
  intros Hin. apply includes_In in Hin. congruence.
Qed.

Lemma deleteMeal_loadMeals (st : Page) (mealName : JSString) :
  loadMeals (deleteMeal st mealName)
  = filter (fun meal => negb (strictEq meal mealName)) (loadMeals st).
Proof. reflexivity. Qed.

Lemma deleteMeal_NoDup (st : Page) (mealName : JSString) :
  NoDup (loadMeals st) -> NoDup (loadMeals (deleteMeal st mealName)).
Proof.
  intros Hnd. rewrite deleteMeal_loadMeals. now apply NoDup_filter.
Qed.

Lemma displayPickedMeal_storage (st : Page) (now : Z) (r : Double.t) :
  stored_mealList (displayPickedMeal st now r) = stored_mealList st
  /\ stored_history (displayPickedMeal st now r) = stored_history st.
Proof.
  unfold displayPickedMeal.
  destruct (pickWeightedMeal_storage st now r) as (Hm & Hh & _).
  destruct (pickWeightedMeal st now r) as [[picked|] st']; simpl in *.
  - destruct picked as [[|c s]|]; simpl; auto.
  - auto.
Qed.

Lemma confirmMeal_mealList (st : Page) (now : Z) :
  stored_mealList (confirmMeal st now) = stored_mealList st.
Proof.
  unfold confirmMeal. destruct (currentPickedMeal st) as [[|c s]|]; reflexivity.
Qed.

Lemma handle_NoDup (st : Page) (e : Event) :
  NoDup (loadMeals st) -> NoDup (loadMeals (handle st e)).
Proof.
  intros Hnd. destruct e as [value| |mealName|now r|now|]; simpl.
  - exact Hnd.
  - now apply addMeal_NoDup.
  - now apply deleteMeal_NoDup.
  - unfold loadMeals. destruct (displayPickedMeal_storage st now r) as [-> _].
    exact Hnd.
  - unfold loadMeals. rewrite confirmMeal_mealList. exact Hnd.
  - exact Hnd.
Qed.

(** C7.  A duplicate-free meal list stays duplicate-free: adding a meal
    appends the trimmed name only when no stored name is equal to it code
    unit for code unit, and leaves the list as it is (with an alert) when one
    is; deleting a meal removes the name; and no other action touches the
    list, so every sequence of user actions keeps the list duplicate-free. *)
Theorem mealList_NoDup_preserved (st : Page) :
  NoDup (loadMeals st) ->
  NoDup (loadMeals (addMeal st))
  /\ (In (trim (newMealInput st)) (loadMeals st) ->
      loadMeals (addMeal st) = loadMeals st
      /\ (trim (newMealInput st) <> [] ->
          alerts (addMeal st)
          = alerts st ++ [str "This meal is already on the list!"]))
  /\ (forall mealName,
        NoDup (loadMeals (deleteMeal st mealName))
        /\ ~ In mealName (loadMeals (deleteMeal st mealName)))
  /\ (forall e, NoDup (loadMeals (handle st e)))
  /\ (forall events, NoDup (loadMeals (run st events))).
Proof.
  intros Hnd.
  split; [now apply addMeal_NoDup|].
  split.
  { intros Hin. apply includes_In in Hin.
    unfold addMeal. rewrite Hin.
    destruct (trim (newMealInput st)) as [|c s]; simpl.
    - split; [reflexivity | congruence].
    - split; reflexivity. }
  split.
  { intros mealName. split; [now apply deleteMeal_NoDup|].
    rewrite deleteMeal_loadMeals, filter_In. intros [_ H].
    rewrite strictEq_refl in H. discriminate. }
  split; [intros e; now apply handle_NoDup|].
  intros events. unfold run. revert st Hnd.
  induction events as [|e events IH]; intros st Hnd; simpl; [exact Hnd|].
  apply IH. now apply handle_NoDup.
Qed.

Lemma mealList_NoDup_preserved_witness :
  let st := mkPage None None None (str "  Pizza ") [] [] true false [] in
  NoDup (loadMeals st)
  /\ NoDup (loadMeals (addMeal st))
  /\ loadMeals (addMeal st) = defaultMeals ++ [str "Pizza"]
  /\ NoDup (loadMeals (deleteMeal st (str "Sushi"))).
Proof.
  intros st. assert (Hnd : NoDup (loadMeals st)) by exact defaultMeals_NoDup.
  destruct (mealList_NoDup_preserved st Hnd) as (Hadd & _ & Hdel & _).
  split; [exact Hnd|]. split; [exact Hadd|]. split; [reflexivity|].
  exact (proj1 (Hdel (str "Sushi"))).
Defined.

(** C8.  When a pick is pending, confirming it stores the old history
    followed by one new entry that holds the picked meal and the current
    time: every earlier entry keeps its position and its content, the
    history grows by exactly one, and the stored meal list is untouched.
    When no pick is pending, confirming changes nothing. *)
Theorem confirmMeal_appends (st : Page) (now : Z) :
  stored_mealList (confirmMeal st now) = stored_mealList st
  /\ loadMeals (confirmMeal st now) = loadMeals st
  /\ (forall meal, currentPickedMeal st = Some meal -> meal <> [] ->
        loadHistory (confirmMeal st now)
        = loadHistory st ++ [HistoryItem.mk meal now]
        /\ length (loadHistory (confirmMeal st now))
           = S (length (loadHistory st))
        /\ (forall i item, nth_error (loadHistory st) i = Some item ->
              nth_error (loadHistory (confirmMeal st now)) i = Some item)
        /\ nth_error (loadHistory (confirmMeal st now)) (length (loadHistory st))
           = Some (HistoryItem.mk meal now))
  /\ (truthy (currentPickedMeal st) = false -> confirmMeal st now = st).
Proof.
  split; [apply confirmMeal_mealList|].
  split; [unfold loadMeals; now rewrite confirmMeal_mealList|].
  split.
  - intros meal Hpicked Hne.
    assert (Hhist : loadHistory (confirmMeal st now)
                    = loadHistory st ++ [HistoryItem.mk meal now]).
    { unfold confirmMeal. rewrite Hpicked.
      destruct meal as [|c s]; [congruence | reflexivity]. }
    rewrite Hhist. split; [reflexivity|].
    split; [rewrite length_app; simpl; lia|].
    split.
    + intros i item Hnth. rewrite nth_error_app1; [assumption|].
      apply nth_error_Some. congruence.
    + rewrite nth_error_app2, Nat.sub_diag by lia. reflexivity.
  - intros Hfalsy. unfold confirmMeal.
    destruct (currentPickedMeal st) as [[|c s]|]; [reflexivity | discriminate | reflexivity].
Qed.

(** C10.  [addMeal] works on the trimmed input: the input is the trimmed
    name between two runs of whitespace, and the trimmed name neither starts
    nor ends with whitespace.  The trimmed name is what is looked up in the
    list and what is appended.  An input that is empty or all whitespace
    leaves the whole page, storage included, as it was.  Hence a name that
    [addMeal] puts on the list is non-empty and carries no leading or
    trailing whitespace. *)
Theorem addMeal_trims (st : Page) :
  let newMeal := trim (newMealInput st) in
  (exists lead trail,
      newMealInput st = lead ++ newMeal ++ trail
      /\ allWhiteSpace lead /\ allWhiteSpace trail)
  /\ noLeadingWhiteSpace newMeal
  /\ noTrailingWhiteSpace newMeal
  /\ (allWhiteSpace (newMealInput st) -> addMeal st = st)
  /\ (In newMeal (loadMeals st) -> loadMeals (addMeal st) = loadMeals st)
  /\ (newMeal <> [] -> ~ In newMeal (loadMeals st) ->
      loadMeals (addMeal st) = loadMeals st ++ [newMeal])
  /\ (forall meal, In meal (loadMeals (addMeal st)) -> ~ In meal (loadMeals st) ->
        meal = newMeal /\ meal <> []
        /\ noLeadingWhiteSpace meal /\ noTrailingWhiteSpace meal)
  /\ stored_history (addMeal st) = stored_history st.
Proof.
  intros newMeal.
  split; [apply trim_split|].
  split; [apply trim_noLeading|].
  split; [apply trim_noTrailing|].
  split.
  { intros Hws. unfold addMeal. now rewrite (trim_allWhiteSpace _ Hws). }
  pose proof (addMeal_loadMeals st) as Hload. cbv zeta in Hload. fold newMeal in Hload.
  split.
  { intros Hin. apply includes_In in Hin. rewrite Hload, Hin.
    now rewrite andb_false_r. }
  split.
  { intros Hne Hnot. rewrite Hload.
    rewrite (proj2 (truthy_nonempty newMeal) Hne).
    destruct (includes (loadMeals st) newMeal) eqn:E; [|reflexivity].
    apply includes_In in E. contradiction. }
  split.
  { intros meal Hin Hnot. rewrite Hload in Hin.
    destruct (truthy (Some newMeal)) eqn:Et; simpl in Hin; [|contradiction].
    destruct (includes (loadMeals st) newMeal); simpl in Hin; [contradiction|].
    apply in_app_or in Hin. destruct Hin as [Hin | [<- | []]]; [contradiction|].
    split; [reflexivity|]. split; [now apply truthy_nonempty|].
    split; [apply trim_noLeading | apply trim_noTrailing]. }
  unfold addMeal. fold newMeal.
  destruct (truthy (Some newMeal)); [|reflexivity].
  destruct (includes (loadMeals st) newMeal); reflexivity.
Qed.

(** ** A session

    On a fresh page the user adds " Pizza " (stored trimmed), picks with a
    random value near 1 (the last slot, Pizza), confirms, and picks again
    with the same random value: Pizza, now eaten recently, is drawn from the
    last slot again and the note is shown. *)
Example session_example :
  let st := mkPage None None None (str "  Pizza ") [] [] true false [] in
  let st' := run st [ClickAddMeal;
                     ClickPickMeal 1700000000000 (Double.mk 8998192055486251 53);
                     ClickConfirm 1700000000005;
                     ClickPickMeal 1700000000010 (Double.mk 8998192055486251 53)] in
  loadMeals st' = defaultMeals ++ [str "Pizza"]
  /\ loadHistory st' = [HistoryItem.mk (str "Pizza") 1700000000005]
  /\ currentPickedMeal st' = Some (str "Pizza")
  /\ pickerMessage st' = reducedChanceNote (str "Pizza").
Proof. vm_compute. repeat split. Qed.

Example trim_example :
  trim [9; 32; 160; 65279; 65; 32; 66; 8232; 12288]%N = [65; 32; 66]%N.
Proof. reflexivity. Qed.

(** * Further properties of the code *)

(** ** The weight model: names, bounds, order of the log, expiry *)

Lemma totalWeight_mealWeights_bounds (meals : list JSString)
    (history : list HistoryItem.t) (now : Z) :
  Z.of_nat (length meals) <= totalWeight (mealWeights meals history now)
  <= 10 * Z.of_nat (length meals).
Proof.
  induction meals as [|m meals IH]; [simpl; lia|].
  cbn [mealWeights map totalWeight fold_right length].
  fold (mealWeights meals history now).
  fold (totalWeight (mealWeights meals history now)).
  destruct (weigh_weight_cases history now m) as [-> | ->]; lia.
Qed.


Lemma fold_max_permutation (l l' : list HistoryItem.t) (latest : Z) :
  Permutation l l' ->
  fold_left (fun latest item => Z.max latest (HistoryItem.date item)) l latest
  = fold_left (fun latest item => Z.max latest (HistoryItem.date item)) l' latest.
Proof.
  intros Hperm. revert latest.
  induction Hperm as [|x l l' _ IH|x y l|l l' l'' _ IH1 _ IH2]; intros latest;
    simpl.
  - reflexivity.
  - apply IH.
  - f_equal. lia.
  - now rewrite IH1.
Qed.

Lemma filter_permutation {A : Type} (f : A -> bool) (l l' : list A) :
  Permutation l l' -> Permutation (filter f l) (filter f l').
Proof.
  induction 1 as [|x l l' _ IH|x y l|l l' l'' _ IH1 _ IH2]; simpl.
  - constructor.
  - destruct (f x); [now constructor | assumption].
  - destruct (f x), (f y); try reflexivity. apply perm_swap.
  - now transitivity (filter f l').
Qed.

(** X2.  The weights do not depend on the order of the history log: two logs
    with the same entries in any order give the same weighted meals. *)
Theorem mealWeights_history_order (meals : list JSString)
    (history history' : list HistoryItem.t) (now : Z) :
  Permutation history history' ->
  mealWeights meals history now = mealWeights meals history' now.
Proof.
  intros Hperm. unfold mealWeights. apply map_ext. intros meal.
  assert (E : lastEaten history meal = lastEaten history' meal).
  { unfold lastEaten. apply fold_max_permutation. now apply filter_permutation. }
  unfold weigh. now rewrite E.
Qed.

Lemma mealWeights_history_order_witness :
  Permutation [HistoryItem.mk (str "Pizza") 1699827200000;
               HistoryItem.mk (str "Tacos") 1600000000000]
              [HistoryItem.mk (str "Tacos") 1600000000000;
               HistoryItem.mk (str "Pizza") 1699827200000]
  /\ mealWeights [str "Tacos"; str "Pizza"]
       [HistoryItem.mk (str "Pizza") 1699827200000;
        HistoryItem.mk (str "Tacos") 1600000000000] 1700000000000
     = mealWeights [str "Tacos"; str "Pizza"]
         [HistoryItem.mk (str "Tacos") 1600000000000;
          HistoryItem.mk (str "Pizza") 1699827200000] 1700000000000.
Proof.
  assert (H : Permutation [HistoryItem.mk (str "Pizza") 1699827200000;
                           HistoryItem.mk (str "Tacos") 1600000000000]
                          [HistoryItem.mk (str "Tacos") 1600000000000;
                           HistoryItem.mk (str "Pizza") 1699827200000])
    by apply perm_swap.
  split; [exact H|].
  exact (mealWeights_history_order _ _ _ 1700000000000 H).
Defined.

(** X3.  With the history unchanged, a penalty that has expired stays
    expired: if a meal has weight 10 at [now], it has weight 10 at every
    later time, and if it has weight 1 at [now], it had weight 1 at every
    earlier time. *)
Theorem weight_expiry_monotone (history : list HistoryItem.t)
    (now now' : Z) (meal : JSString) :
  now <= now' ->
  (MealWeight.weight (weigh history now meal) = 10 ->
   MealWeight.weight (weigh history now' meal) = 10)
  /\ (MealWeight.weight (weigh history now' meal) = 1 ->
      MealWeight.weight (weigh history now meal) = 1).
Proof.
  intros Hle. rewrite !weigh_weight.
  destruct (Z.ltb_spec (now - lastEaten history meal) RECENT_DAYS_MS);
    destruct (Z.ltb_spec (now' - lastEaten history meal) RECENT_DAYS_MS);
    split; intros; try reflexivity; try discriminate; lia.
Qed.

Lemma weight_expiry_monotone_witness :
  1700000000000 <= 1702592000000
  /\ (MealWeight.weight
        (weigh [HistoryItem.mk (str "Pizza") 1600000000000] 1700000000000
               (str "Pizza")) = 10 ->
      MealWeight.weight
        (weigh [HistoryItem.mk (str "Pizza") 1600000000000] 1702592000000
               (str "Pizza")) = 10).
Proof.
  assert (H : 1700000000000 <= 1702592000000) by lia.
  split; [exact H|].
  exact (proj1 (weight_expiry_monotone
                  [HistoryItem.mk (str "Pizza") 1600000000000]
                  1700000000000 1702592000000 (str "Pizza") H)).
Defined.

(** ** Confirming a meal and its weight *)

Lemma lastEaten_snoc (history : list HistoryItem.t) (item : HistoryItem.t)
    (meal : JSString) :
  lastEaten (history ++ [item]) meal
  = if strictEq (HistoryItem.meal item) meal
    then Z.max (lastEaten history meal) (HistoryItem.date item)
    else lastEaten history meal.
Proof.
  unfold lastEaten. rewrite filter_app, fold_left_app. simpl.
  destruct (strictEq (HistoryItem.meal item) meal); reflexivity.
Qed.

Lemma confirmMeal_history (st : Page) (now : Z) (meal : JSString) :
  currentPickedMeal st = Some meal -> meal <> [] ->
  loadHistory (confirmMeal st now)
  = loadHistory st ++ [HistoryItem.mk meal now].
Proof.
  intros Hpicked Hne. unfold confirmMeal. rewrite Hpicked.
  destruct meal as [|c s]; [congruence | reflexivity].
Qed.

(** X4.  Confirming a pending pick at time [now] penalises exactly the
    confirmed meal: at every time less than 30 days after [now] its weight is
    1, and the weight of every other meal, at any time, is what it was
    before the confirmation. *)
Theorem confirmMeal_penalizes (st : Page) (now : Z) (meal : JSString) :
  currentPickedMeal st = Some meal -> meal <> [] ->
  (forall now', now' - now < RECENT_DAYS_MS ->
     weigh (loadHistory (confirmMeal st now)) now' meal
     = MealWeight.mk meal 1)
  /\ (forall other now', other <> meal ->
        weigh (loadHistory (confirmMeal st now)) now' other
        = weigh (loadHistory st) now' other).
Proof.
  intros Hpicked Hne. rewrite (confirmMeal_history st now meal Hpicked Hne).
  split.
  - intros now' Hlt. unfold weigh, isRecent.
    rewrite lastEaten_snoc. cbn [HistoryItem.meal HistoryItem.date].
    rewrite strictEq_refl.
    destruct (Z.ltb_spec (now' - Z.max (lastEaten (loadHistory st) meal) now)
                RECENT_DAYS_MS); [reflexivity | lia].
  - intros other now' Hneq. unfold weigh.
    rewrite lastEaten_snoc. cbn [HistoryItem.meal].
    apply not_eq_sym in Hneq. apply strictEq_false_iff in Hneq.
    now rewrite Hneq.
Qed.

Lemma confirmMeal_penalizes_witness :
  let st := mkPage None None (Some (str "Sushi")) [] [] (str "Sushi")
                   false true [] in
  (currentPickedMeal st = Some (str "Sushi") /\ str "Sushi" <> [])
  /\ weigh (loadHistory (confirmMeal st 1700000000000)) 1700000500000
           (str "Sushi")
     = MealWeight.mk (str "Sushi") 1.
Proof.
  intros st.
  assert (Hp : currentPickedMeal st = Some (str "Sushi")) by reflexivity.
  assert (Hne : str "Sushi" <> []) by discriminate.
  split; [split; assumption|].
  apply (proj1 (confirmMeal_penalizes st 1700000000000 (str "Sushi") Hp Hne)).
  vm_compute. reflexivity.
Defined.

(** ** The displayed history and the weights agree on what is recent *)

Lemma recentSorted_In (history : list HistoryItem.t) (now : Z)
    (item : HistoryItem.t) :
  In item (recentSorted history now)
  <-> In item history /\ now - RECENT_DAYS_MS < HistoryItem.date item.
Proof.
  unfold recentSorted.
  set (recent := filter _ history).
  assert (Hperm : Permutation (sort (fun a b => HistoryItem.date b - HistoryItem.date a) recent) recent)
    by apply sort_perm.
  split.
  - intros Hin. apply (Permutation_in _ Hperm) in Hin.
    apply filter_In in Hin. destruct Hin as [Hin Hlt]. split; [assumption|].
    now apply Z.ltb_lt.
  - intros [Hin Hlt]. apply (Permutation_in _ (Permutation_sym Hperm)).
    apply filter_In. split; [assumption|]. now apply Z.ltb_lt.
Qed.

Lemma recentHistory_empty (history : list HistoryItem.t) (now : Z) :
  recentHistory history now = [] <-> recentSorted history now = [].
Proof.
  unfold recentHistory, slice0.
  destruct (recentSorted history now); simpl; split; congruence.
Qed.

(** X5.  When the clock is at least 30 days past the epoch, the history
    display and the weighting use the same notion of recent: a meal has
    weight 1 exactly when some entry for it passes the display filter
    (before the cut to ten entries).  In particular, when the displayed
    history is empty, every meal has the default weight 10, as the message
    shown in that case says. *)
Theorem recent_display_agrees_with_weights (history : list HistoryItem.t)
    (now : Z) :
  RECENT_DAYS_MS <= now ->
  (forall meal,
     MealWeight.weight (weigh history now meal) = 1
     <-> exists item, In item (recentSorted history now)
                      /\ HistoryItem.meal item = meal)
  /\ (recentHistory history now = [] ->
      forall meal, MealWeight.weight (weigh history now meal) = 10).
Proof.
  intros Hnow.
  assert (Hiff : forall meal,
             MealWeight.weight (weigh history now meal) = 1
             <-> exists item, In item (recentSorted history now)
                              /\ HistoryItem.meal item = meal).
  { intros meal. rewrite weigh_weight. split.
    - intros Hw.
      destruct (Z.ltb_spec (now - lastEaten history meal) RECENT_DAYS_MS)
        as [Hlt|]; [|discriminate].
      destruct (lastEaten_attained history meal) as [E | (item & Hin & Hm & Hd)].
      + lia.
      + exists item. split; [|assumption]. apply recentSorted_In.
        split; [assumption | lia].
    - intros (item & Hin & Hm). apply recentSorted_In in Hin.
      destruct Hin as [Hin Hlt].
      pose proof (lastEaten_upper history meal item Hin Hm).
      destruct (Z.ltb_spec (now - lastEaten history meal) RECENT_DAYS_MS);
        [reflexivity | lia]. }
  split; [exact Hiff|].
  intros Hempty meal. apply recentHistory_empty in Hempty.
  destruct (weigh_weight_cases history now meal) as [H1 | H10]; [|exact H10].
  apply Hiff in H1. destruct H1 as (item & Hin & _).
  rewrite Hempty in Hin. contradiction.
Qed.

Lemma recent_display_agrees_with_weights_witness :
  RECENT_DAYS_MS <= 1700000000000
  /\ (recentHistory [HistoryItem.mk (str "Pizza") 1600000000000] 1700000000000
      = [] ->
      forall meal,
        MealWeight.weight
          (weigh [HistoryItem.mk (str "Pizza") 1600000000000] 1700000000000
                 meal) = 10).
Proof.
  assert (H : RECENT_DAYS_MS <= 1700000000000) by (vm_compute; discriminate).
  split; [exact H|].
  exact (proj2 (recent_display_agrees_with_weights
                  [HistoryItem.mk (str "Pizza") 1600000000000]
                  1700000000000 H)).
Defined.

(** ** What a pick returns *)

(** X6.  With a random value in [[0,1)] a pick never fails with a
    [TypeError]: it returns [null] exactly when the meal list is empty, and
    otherwise a name that is on the meal list; it leaves the stored meal
    list, the stored history and the pending pick as they were. *)
Theorem pickWeightedMeal_returns_listed (st : Page) (now : Z) (r : Double.t) :
  isRandomValue r ->
  exists picked,
    fst (pickWeightedMeal st now r) = Return picked
    /\ (picked = None <-> loadMeals st = [])
    /\ (forall meal, picked = Some meal -> In meal (loadMeals st))
    /\ stored_mealList (snd (pickWeightedMeal st now r)) = stored_mealList st
    /\ stored_history (snd (pickWeightedMeal st now r)) = stored_history st
    /\ currentPickedMeal (snd (pickWeightedMeal st now r))
       = currentPickedMeal st.
Proof.
  intros Hr.
  destruct (pickWeightedMeal_storage st now r) as (Hm & Hh & Hc).
  destruct (loadMeals st) as [|m meals] eqn:Hmeals.
  - exists None. split.
    + unfold pickWeightedMeal. rewrite Hmeals. reflexivity.
    + repeat split; auto; discriminate.
  - assert (Hne : loadMeals st <> []) by congruence.
    destruct (pickWeightedMeal_nonempty st now r Hne Hr)
      as (item & _ & Hin & Hpick).
    exists (Some (MealWeight.meal item)). rewrite Hpick in *.
    split; [reflexivity|].
    split; [split; discriminate|].
    split; [|auto].
    intros meal [= <-]. rewrite <- Hmeals.
    now apply (mealWeights_In _ _ _ _ Hin).
Qed.

Lemma pickWeightedMeal_returns_listed_witness :
  let st := mkPage None None None [] [] [] true false [] in
  isRandomValue double_0_5
  /\ exists picked,
       fst (pickWeightedMeal st 1700000000000 double_0_5) = Return picked
       /\ (forall meal, picked = Some meal -> In meal (loadMeals st)).
Proof.
  intros st.
  assert (Hr : isRandomValue double_0_5) by (unfold isRandomValue; simpl; lia).
  split; [exact Hr|].
  destruct (pickWeightedMeal_returns_listed st 1700000000000 double_0_5 Hr)
    as (picked & Hret & _ & Hin & _).
  exists picked. split; [exact Hret | exact Hin].
Defined.

Lemma weightedList_In_meal (meals : list JSString)
    (history : list HistoryItem.t) (now : Z) (meal : JSString) :
  In meal meals -> In meal (weightedList (mealWeights meals history now)).
Proof.
  intros Hin. rewrite weightedList_flat_map. apply in_flat_map.
  exists (weigh history now meal). split.
  - unfold mealWeights. now apply in_map.
  - unfold copies. rewrite weigh_meal.
    destruct (weigh_weight_cases history now meal) as [-> | ->]; simpl; auto.
Qed.

(** X7.  No meal on the list is ever excluded: as long as the selection
    array fits a JavaScript array, each listed meal, recently eaten or not,
    is returned for some value of [Math.random()]. *)
Theorem every_meal_can_be_picked (st : Page) (now : Z) (meal : JSString) :
  In meal (loadMeals st) ->
  10 * Z.of_nat (length (loadMeals st)) < 2 ^ 32 ->
  exists r, isRandomValue r
            /\ fst (pickWeightedMeal st now r) = Return (Some meal).
Proof.
  intros Hin Hfit.
  set (items := mealWeights (loadMeals st) (loadHistory st) now).
  pose proof (weightedList_In_meal _ (loadHistory st) now _ Hin) as Hpool.
  fold items in Hpool.
  destruct (In_nth_error _ _ Hpool) as (k & Hk).
  assert (Hlt : (k < length (weightedList items))%nat).
  { apply nth_error_Some. congruence. }
  assert (Hn : Z.of_nat (length (weightedList items)) < 2 ^ 32).
  { pose proof (weightedList_length _
                  (mealWeights_positive (loadMeals st) (loadHistory st) now)).
    pose proof (totalWeight_mealWeights_bounds (loadMeals st) (loadHistory st) now).
    fold items in H, H0. lia. }
  destruct (randomIndex_slot _ k Hlt Hn) as (r & Hr & Hidx).
  exists r. split; [exact Hr|].
  assert (Hne : loadMeals st <> []) by (intros E; rewrite E in Hin; contradiction).
  destruct (pickWeightedMeal_nonempty st now r Hne Hr)
    as (item & Hsel & _ & Hpick).
  rewrite Hpick. cbn [fst]. fold items in Hsel.
  assert (Hchosen : chosenMeal items r = Some meal).
  { unfold chosenMeal, at_index. cbv zeta. rewrite Hidx.
    destruct (Z.ltb_spec (Z.of_nat k) 0); [lia|]. now rewrite Nat2Z.id. }
  rewrite chosenMeal_selectedItem, Hsel in Hchosen. simpl in Hchosen.
  congruence.
Qed.

Lemma every_meal_can_be_picked_witness :
  let st := mkPage (Some [str "Tacos"; str "Pizza"])
                   (Some [HistoryItem.mk (str "Pizza") 1699827200000])
                   None [] [] [] true false [] in
  (In (str "Pizza") (loadMeals st)
   /\ 10 * Z.of_nat (length (loadMeals st)) < 2 ^ 32)
  /\ exists r, isRandomValue r
               /\ fst (pickWeightedMeal st 1700000000000 r)
                  = Return (Some (str "Pizza")).
Proof.
  intros st.
  assert (H : In (str "Pizza") (loadMeals st)) by (simpl; auto).
  assert (Hfit : 10 * Z.of_nat (length (loadMeals st)) < 2 ^ 32)
    by (vm_compute; reflexivity).
  split; [split; assumption|].
  exact (every_meal_can_be_picked st 1700000000000 (str "Pizza") H Hfit).
Defined.

Lemma nth_error_cumulativePick (items : list MealWeight.t) (k : Z) :
  positiveWeights items -> 0 <= k ->
  nth_error (flat_map copies items) (Z.to_nat k) = cumulativePick items k.
Proof.
  intros Hpos. revert k.
  induction Hpos as [|item items Hitem _ IH]; intros k Hk; simpl.
  - now destruct (Z.to_nat k).
  - unfold copies at 1.
    destruct (Z.ltb_spec k (MealWeight.weight item)) as [Hlt | Hge].
    + rewrite nth_error_app1 by (rewrite repeat_length; lia).
      apply nth_error_repeat. lia.
    + rewrite nth_error_app2 by (rewrite repeat_length; lia).
      rewrite repeat_length, <- IH by lia. f_equal. lia.
Qed.

(** X8.  The draw from the replicated array is a walk over cumulative
    weights: for positive weights and a non-negative random value, the
    chosen meal is the first one whose cumulative weight exceeds the floor
    of the double product of [r] and the total weight, and there is none
    when that index reaches the total. *)
Theorem chosenMeal_cumulative (items : list MealWeight.t) (r : Double.t) :
  positiveWeights items -> 0 <= Double.significand r ->
  chosenMeal items r
  = cumulativePick items (Double.floor (Double.times r (totalWeight items))).
Proof.
  intros Hpos H0. unfold chosenMeal, at_index, randomIndex. cbv zeta.
  rewrite (weightedList_length items Hpos).
  assert (HT : 0 <= totalWeight items).
  { clear H0. induction Hpos; simpl; lia. }
  pose proof (times_nonneg r (totalWeight items) H0 HT) as Hidx.
  destruct (Z.ltb_spec (Double.floor (Double.times r (totalWeight items))) 0);
    [lia|].
  rewrite weightedList_flat_map. now apply nth_error_cumulativePick.
Qed.

Lemma chosenMeal_cumulative_witness :
  let items := [MealWeight.mk (str "Tacos") 10; MealWeight.mk (str "Pizza") 1] in
  (positiveWeights items /\ 0 <= Double.significand double_0_95)
  /\ chosenMeal items double_0_95
     = cumulativePick items
         (Double.floor (Double.times double_0_95 (totalWeight items))).
Proof.
  intros items.
  assert (Hpos : positiveWeights items) by (repeat constructor).
  assert (H0 : 0 <= Double.significand double_0_95) by (simpl; lia).
  split; [split; assumption|].
  exact (chosenMeal_cumulative items double_0_95 Hpos H0).
Defined.

(** ** The picker's display and the pending pick *)

Lemma pickWeightedMeal_display (st : Page) (now : Z) (r : Double.t) :
  resultArea_hidden (snd (pickWeightedMeal st now r)) = resultArea_hidden st
  /\ pickMealBtn_hidden (snd (pickWeightedMeal st now r)) = pickMealBtn_hidden st.
Proof.
  unfold pickWeightedMeal. cbv zeta.
  destruct (length (loadMeals st) =? 0)%nat; [split; reflexivity|].
  destruct (chosenMeal _ r) as [chosen|]; [|split; reflexivity].
  destruct (weightInfo _ chosen) as [info|]; [|split; reflexivity].
  destruct (MealWeight.weight info =? 1); split; reflexivity.
Qed.

Lemma displayPickedMeal_uiConsistent (st : Page) (now : Z) (r : Double.t) :
  uiConsistent st -> uiConsistent (displayPickedMeal st now r).
Proof.
  intros [Hr Hb]. unfold displayPickedMeal.
  destruct (pickWeightedMeal_storage st now r) as (_ & _ & Hc).
  destruct (pickWeightedMeal_display st now r) as (Hr' & Hb').
  destruct (pickWeightedMeal st now r) as [[picked|] st']; simpl in *.
  - destruct picked as [[|c s]|]; split; reflexivity.
  - unfold uiConsistent. now rewrite Hr', Hb', Hc.
Qed.

Lemma handle_uiConsistent (st : Page) (e : Event) :
  uiConsistent st -> uiConsistent (handle st e).
Proof.
  intros H. destruct e as [value| |mealName|now r|now|]; simpl.
  - exact H.
  - unfold addMeal. destruct (truthy (Some _)); [|exact H].
    destruct (negb _); exact H.
  - exact H.
  - now apply displayPickedMeal_uiConsistent.
  - unfold confirmMeal. destruct (currentPickedMeal st) as [[|c s]|] eqn:E;
      try exact H. split; reflexivity.
  - split; reflexivity.
Qed.

(** X9.  The result area is shown and the pick button hidden exactly while
    a pick is pending: when this holds on a page, it holds after any
    sequence of user actions, also one that follows a cancel. *)
Theorem uiConsistent_preserved (st : Page) (events : list Event) :
  uiConsistent st ->
  uiConsistent (run st events)
  /\ uiConsistent (run (cancelPick st) events).
Proof.
  intros H.
  assert (Hrun : forall events st, uiConsistent st -> uiConsistent (run st events)).
  { clear. intros events. unfold run.
    induction events as [|e events IH]; intros st H; simpl; [exact H|].
    apply IH. now apply handle_uiConsistent. }
  split; [now apply Hrun|]. apply Hrun. split; reflexivity.
Qed.

Lemma uiConsistent_preserved_witness :
  let st := mkPage None None None [] [] [] true false [] in
  uiConsistent st
  /\ uiConsistent (run st [ClickPickMeal 1700000000000 double_0_5;
                           ClickDelete (str "Sushi");
                           ClickConfirm 1700000000005]).
Proof.
  intros st. assert (H : uiConsistent st) by (split; reflexivity).
  split; [exact H|].
  exact (proj1 (uiConsistent_preserved st _ H)).
Defined.

Lemma confirmMeal_falsy (st : Page) (now : Z) :
  truthy (currentPickedMeal st) = false -> confirmMeal st now = st.
Proof.
  unfold confirmMeal.
  destruct (currentPickedMeal st) as [[|c s]|]; [reflexivity | discriminate | reflexivity].
Qed.

Lemma confirmMeal_clears (st : Page) (now : Z) :
  truthy (currentPickedMeal (confirmMeal st now)) = false.
Proof.
  unfold confirmMeal.
  destruct (currentPickedMeal st) as [[|c s]|] eqn:E; simpl;
    try rewrite E; reflexivity.
Qed.

(** X10.  A pending pick is consumed by its confirmation and dropped by a
    cancel: confirming twice records what confirming once records, and a
    confirmation after a cancel records nothing; a cancel leaves the stored
    history and the stored meal list as they were. *)
Theorem confirmMeal_consumes_pick (st : Page) (now now' : Z) :
  confirmMeal (confirmMeal st now) now' = confirmMeal st now
  /\ truthy (currentPickedMeal (confirmMeal st now)) = false
  /\ confirmMeal (cancelPick st) now' = cancelPick st
  /\ stored_history (cancelPick st) = stored_history st
  /\ stored_mealList (cancelPick st) = stored_mealList st.
Proof.
  split; [apply confirmMeal_falsy, confirmMeal_clears|].
  split; [apply confirmMeal_clears|].
  repeat split.
Qed.

(** ** The history log over a whole session *)

Lemma addMeal_history (st : Page) :
  stored_history (addMeal st) = stored_history st.
Proof.
  unfold addMeal. destruct (truthy (Some _)); [|reflexivity].
  destruct (negb _); reflexivity.
Qed.

Lemma handle_history (st : Page) (e : Event) :
  loadHistory (handle st e) = loadHistory st
  \/ exists meal now,
       e = ClickConfirm now /\ meal <> []
       /\ currentPickedMeal st = Some meal
       /\ loadHistory (handle st e)
          = loadHistory st ++ [HistoryItem.mk meal now].
Proof.
  destruct e as [value| |mealName|now r|now|]; simpl.
  - now left.
  - left. unfold loadHistory. now rewrite addMeal_history.
  - now left.
  - left. unfold loadHistory.
    now rewrite (proj2 (displayPickedMeal_storage st now r)).
  - destruct (currentPickedMeal st) as [[|c s]|] eqn:E.
    + left. unfold confirmMeal. now rewrite E.
    + right. exists (c :: s), now. split; [reflexivity|].
      split; [discriminate|]. split; [reflexivity|].
      apply confirmMeal_history; [assumption | discriminate].
    + left. unfold confirmMeal. now rewrite E.
  - now left.
Qed.

(** X11.  Over any sequence of user actions the history is an append-only
    log: the history at the end is the history at the start followed by new
    entries, at most one per click on confirm, each with a non-empty meal
    name and the clock reading of one of those clicks. *)
Theorem history_append_only (st : Page) (events : list Event) :
  exists added,
    loadHistory (run st events) = loadHistory st ++ added
    /\ (length added <= confirmClicks events)%nat
    /\ Forall (fun item => HistoryItem.meal item <> []
                           /\ In (ClickConfirm (HistoryItem.date item)) events)
              added.
Proof.
  unfold run. revert st.
  induction events as [|e events IH]; intros st.
  - exists []. simpl. rewrite app_nil_r. repeat split; [lia | constructor].
  - cbn [fold_left]. destruct (IH (handle st e)) as (added & Hrun & Hlen & Hall).
    assert (Hweak : Forall (fun item => HistoryItem.meal item <> []
                              /\ In (ClickConfirm (HistoryItem.date item))
                                    (e :: events)) added).
    { eapply Forall_impl; [|exact Hall]. intros item [H1 H2].
      split; [assumption | now right]. }
    destruct (handle_history st e) as [Hsame | (meal & now & -> & Hne & _ & Happ)].
    + exists added. rewrite Hrun, Hsame. split; [reflexivity|].
      split; [|exact Hweak].
      unfold confirmClicks in *. simpl. destruct e; simpl; lia.
    + exists (HistoryItem.mk meal now :: added).
      rewrite Hrun, Happ, <- app_assoc. split; [reflexivity|].
      split; [unfold confirmClicks in *; simpl; lia|].
      constructor; [|exact Hweak]. split; [exact Hne | now left].
Qed.

(** ** Names on the meal list *)

Lemma handle_trimmedNames (st : Page) (e : Event) :
  Forall trimmedName (loadMeals st) ->
  Forall trimmedName (loadMeals (handle st e)).
Proof.
  intros H. destruct e as [value| |mealName|now r|now|]; simpl.
  - exact H.
  - rewrite addMeal_loadMeals. cbv zeta.
    destruct (truthy (Some (trim (newMealInput st)))) eqn:Et; [|exact H].
    destruct (negb _); [|exact H]. simpl.
    apply Forall_app. split; [exact H|]. constructor; [|constructor].
    split; [now apply truthy_nonempty|].
    split; [apply trim_noLeading | apply trim_noTrailing].
  - rewrite deleteMeal_loadMeals. rewrite Forall_forall in *.
    intros x Hx. apply filter_In in Hx. now apply H.
  - unfold loadMeals. now rewrite (proj1 (displayPickedMeal_storage st now r)).
  - unfold loadMeals. now rewrite confirmMeal_mealList.
  - exact H.
Qed.

Lemma defaultMeals_trimmed : Forall trimmedName defaultMeals.
Proof.
  unfold defaultMeals.
  repeat (constructor; [split; [discriminate | split; reflexivity]|]).
  constructor.
Qed.

(** X12.  If every name on the meal list is non-empty and free of leading
    and trailing whitespace, which holds for the default list, then this is
    still so after any sequence of user actions. *)
Theorem trimmedNames_preserved (st : Page) (events : list Event) :
  Forall trimmedName (loadMeals st) ->
  Forall trimmedName (loadMeals (run st events)).
Proof.
  unfold run. revert st.
  induction events as [|e events IH]; intros st H; simpl; [exact H|].
  apply IH. now apply handle_trimmedNames.
Qed.

Lemma trimmedNames_preserved_witness :
  let st := mkPage None None None [] [] [] true false [] in
  Forall trimmedName (loadMeals st)
  /\ Forall trimmedName
       (loadMeals (run st [TypeMeal (str "  Ramen  "); ClickAddMeal;
                           ClickDelete (str "Steak")])).
Proof.
  intros st.
  assert (H : Forall trimmedName (loadMeals st)) by exact defaultMeals_trimmed.
  split; [exact H|].
  exact (trimmedNames_preserved st _ H).
Defined.

(** ** From a pick to its confirmation *)

(** X13.  On a non-empty meal list without the empty name, a pick with a
    random value in [[0,1)] leaves a meal of the list pending and on
    display; confirming it at [now'] appends exactly that meal with that
    time to the history, after which the meal has weight 1 at [now']. *)
Theorem pick_then_confirm (st : Page) (now now' : Z) (r : Double.t) :
  loadMeals st <> [] -> ~ In [] (loadMeals st) ->
  isRandomValue r ->
  exists meal,
    In meal (loadMeals st)
    /\ fst (pickWeightedMeal st now r) = Return (Some meal)
    /\ currentPickedMeal (displayPickedMeal st now r) = Some meal
    /\ chosenMealDisplay (displayPickedMeal st now r) = meal
    /\ resultArea_hidden (displayPickedMeal st now r) = false
    /\ loadHistory (run st [ClickPickMeal now r; ClickConfirm now'])
       = loadHistory st ++ [HistoryItem.mk meal now']
    /\ weigh (loadHistory (run st [ClickPickMeal now r; ClickConfirm now']))
             now' meal
       = MealWeight.mk meal 1.
Proof.
  intros Hne Hnoempty Hrand.
  destruct (pickWeightedMeal_nonempty st now r Hne Hrand)
    as (item & _ & Hin & Hpick).
  destruct (mealWeights_In _ _ _ _ Hin) as [Hmeal _].
  set (meal := MealWeight.meal item) in *.
  assert (Hmne : meal <> []) by (intros E; rewrite E in Hmeal; contradiction).
  exists meal. split; [exact Hmeal|].
  split; [now rewrite Hpick|].
  assert (Hdisp : currentPickedMeal (displayPickedMeal st now r) = Some meal
                  /\ chosenMealDisplay (displayPickedMeal st now r) = meal
                  /\ resultArea_hidden (displayPickedMeal st now r) = false).
  { unfold displayPickedMeal. rewrite Hpick.
    destruct meal as [|c s]; [congruence|]. repeat split. }
  destruct Hdisp as (Hc & Hd & Hr).
  split; [exact Hc|]. split; [exact Hd|]. split; [exact Hr|].
  assert (Hhist : loadHistory (run st [ClickPickMeal now r; ClickConfirm now'])
                  = loadHistory st ++ [HistoryItem.mk meal now']).
  { unfold run. cbn [fold_left handle].
    rewrite (confirmMeal_history _ now' meal Hc Hmne).
    unfold loadHistory at 1.
    now rewrite (proj2 (displayPickedMeal_storage st now r)). }
  split; [exact Hhist|].
  rewrite Hhist. unfold weigh, isRecent. rewrite lastEaten_snoc.
  cbn [HistoryItem.meal HistoryItem.date]. rewrite strictEq_refl.
  destruct (Z.ltb_spec (now' - Z.max (lastEaten (loadHistory st) meal) now')
              RECENT_DAYS_MS) as [|Hge]; [reflexivity|].
  exfalso. unfold RECENT_DAYS_MS in Hge. lia.
Qed.

Lemma pick_then_confirm_witness :
  let st := mkPage None None None [] [] [] true false [] in
  (loadMeals st <> [] /\ ~ In [] (loadMeals st)
   /\ isRandomValue double_0_5)
  /\ exists meal,
       In meal (loadMeals st)
       /\ loadHistory (run st [ClickPickMeal 1700000000000 double_0_5;
                               ClickConfirm 1700000000005])
          = loadHistory st ++ [HistoryItem.mk meal 1700000000005].
Proof.
  intros st.
  assert (Hne : loadMeals st <> []) by discriminate.
  assert (Hno : ~ In [] (loadMeals st)) by (simpl; intuition discriminate).
  assert (Hr : isRandomValue double_0_5) by (unfold isRandomValue; simpl; lia).
  split; [repeat split; try assumption; apply Hr|].
  destruct (pick_then_confirm st 1700000000000 1700000000005 double_0_5
              Hne Hno Hr) as (meal & Hin & _ & _ & _ & _ & Hhist & _).
  exists meal. split; [exact Hin | exact Hhist].
Defined.

(** ** Deleting meals *)

Lemma filter_id_notin (l : list JSString) (mealName : JSString) :
  ~ In mealName l ->
  filter (fun meal => negb (strictEq meal mealName)) l = l.
Proof.
  intros Hnot. apply forallb_filter_id, forallb_forall. intros x Hx.
  apply negb_true_iff, strictEq_false_iff. intros ->. contradiction.
Qed.

(** X14.  Deleting a name removes every meal equal to it and nothing else,
    keeping the others in their order; deleting a name that is not on the
    list leaves the list as it is; deleting twice is deleting once; two
    deletions give the same list in either order; and a deletion touches
    neither the stored history nor the pending pick. *)
Theorem deleteMeal_removes (st : Page) (mealName : JSString) :
  (forall meal, In meal (loadMeals (deleteMeal st mealName))
                <-> In meal (loadMeals st) /\ meal <> mealName)
  /\ (forall before after,
        loadMeals st = before ++ mealName :: after ->
        ~ In mealName before -> ~ In mealName after ->
        loadMeals (deleteMeal st mealName) = before ++ after)
  /\ (~ In mealName (loadMeals st) ->
      loadMeals (deleteMeal st mealName) = loadMeals st)
  /\ deleteMeal (deleteMeal st mealName) mealName = deleteMeal st mealName
  /\ (forall other,
        loadMeals (deleteMeal (deleteMeal st mealName) other)
        = loadMeals (deleteMeal (deleteMeal st other) mealName))
  /\ stored_history (deleteMeal st mealName) = stored_history st
  /\ currentPickedMeal (deleteMeal st mealName) = currentPickedMeal st.
Proof.
  split.
  { intros meal. rewrite deleteMeal_loadMeals, filter_In, negb_true_iff.
    now rewrite strictEq_false_iff. }
  split.
  { intros before after Hsplit Hb Ha.
    rewrite deleteMeal_loadMeals, Hsplit, filter_app. cbn [filter].
    rewrite strictEq_refl. cbn [negb].
    now rewrite !filter_id_notin by assumption. }
  split.
  { intros Hnot. rewrite deleteMeal_loadMeals. now apply filter_id_notin. }
  split.
  { unfold deleteMeal, saveMeals, set_stored_mealList. cbn.
    f_equal. f_equal. apply filter_id_notin.
    rewrite filter_In, strictEq_refl. intros [_ H]. discriminate. }
  split; [|split; reflexivity].
  intros other. rewrite !deleteMeal_loadMeals.
  induction (loadMeals st) as [|m l IH]; [reflexivity|]. cbn [filter].
  destruct (strictEq m mealName) eqn:E1, (strictEq m other) eqn:E2;
    cbn [negb filter]; rewrite ?E1, ?E2; cbn [negb]; now rewrite IH.
Qed.

Lemma deleteMeal_keeps_pick (st : Page) (mealName : JSString) :
  currentPickedMeal (deleteMeal st mealName) = currentPickedMeal st
  /\ loadHistory (deleteMeal st mealName) = loadHistory st.
Proof. split; reflexivity. Qed.

(** X15.  Deleting a meal does not cancel a pending pick of it: the pick can
    still be confirmed, and the history then records a meal that is no
    longer on the meal list. *)
Theorem deleteMeal_then_confirm (st : Page) (now : Z) (meal : JSString) :
  currentPickedMeal st = Some meal -> meal <> [] ->
  let st' := run st [ClickDelete meal; ClickConfirm now] in
  ~ In meal (loadMeals st')
  /\ loadHistory st' = loadHistory st ++ [HistoryItem.mk meal now].
Proof.
  intros Hpicked Hne st'. unfold st', run. cbn [fold_left handle]. split.
  - unfold loadMeals. rewrite confirmMeal_mealList.
    fold (loadMeals (deleteMeal st meal)).
    rewrite deleteMeal_loadMeals, filter_In, strictEq_refl.
    intros [_ H]. discriminate.
  - destruct (deleteMeal_keeps_pick st meal) as [Hc Hh].
    rewrite (confirmMeal_history _ now meal); [|now rewrite Hc | assumption].
    now rewrite Hh.
Qed.

Lemma deleteMeal_then_confirm_witness :
  let st := mkPage None None (Some (str "Sushi")) [] [] (str "Sushi")
                   false true [] in
  (currentPickedMeal st = Some (str "Sushi") /\ str "Sushi" <> [])
  /\ ~ In (str "Sushi")
          (loadMeals (run st [ClickDelete (str "Sushi");
                              ClickConfirm 1700000000000]))
  /\ loadHistory (run st [ClickDelete (str "Sushi"); ClickConfirm 1700000000000])
     = loadHistory st ++ [HistoryItem.mk (str "Sushi") 1700000000000].
Proof.
  intros st.
  assert (Hp : currentPickedMeal st = Some (str "Sushi")) by reflexivity.
  assert (Hne : str "Sushi" <> []) by discriminate.
  split; [split; assumption|].
  exact (deleteMeal_then_confirm st 1700000000000 (str "Sushi") Hp Hne).
Defined.

(** ** Adding meals *)

Lemma addMeal_success (st : Page) :
  trim (newMealInput st) <> [] -> ~ In (trim (newMealInput st)) (loadMeals st) ->
  addMeal st
  = set_newMealInput
      (saveMeals st (loadMeals st ++ [trim (newMealInput st)])) [].
Proof.
  intros Hne Hnot. unfold addMeal.
  rewrite (proj2 (truthy_nonempty _) Hne).
  destruct (includes (loadMeals st) (trim (newMealInput st))) eqn:E;
    [|reflexivity].
  apply includes_In in E. contradiction.
Qed.

(** X16.  When the trimmed input is a new, non-empty name, [addMeal] appends
    it after the meals already listed and empties the input field, so a
    second click without typing changes nothing; deleting the added name
    gives back the meal list as it was. *)
Theorem addMeal_then_deleteMeal (st : Page) :
  trim (newMealInput st) <> [] -> ~ In (trim (newMealInput st)) (loadMeals st) ->
  loadMeals (addMeal st) = loadMeals st ++ [trim (newMealInput st)]
  /\ newMealInput (addMeal st) = []
  /\ addMeal (addMeal st) = addMeal st
  /\ loadMeals (deleteMeal (addMeal st) (trim (newMealInput st)))
     = loadMeals st.
Proof.
  intros Hne Hnot. rewrite (addMeal_success st Hne Hnot).
  split; [reflexivity|]. split; [reflexivity|]. split; [reflexivity|].
  rewrite deleteMeal_loadMeals. cbn [loadMeals saveMeals set_newMealInput
    set_stored_mealList stored_mealList].
  rewrite filter_app. cbn [filter]. rewrite strictEq_refl. cbn [negb].
  rewrite app_nil_r. now apply filter_id_notin.
Qed.

Lemma addMeal_then_deleteMeal_witness :
  let st := mkPage None None None (str "  Ramen ") [] [] true false [] in
  (trim (newMealInput st) <> []
   /\ ~ In (trim (newMealInput st)) (loadMeals st))
  /\ loadMeals (addMeal st) = loadMeals st ++ [str "Ramen"]
  /\ loadMeals (deleteMeal (addMeal st) (str "Ramen")) = loadMeals st.
Proof.
  intros st.
  assert (Hne : trim (newMealInput st) <> []) by discriminate.
  assert (Hnot : ~ In (trim (newMealInput st)) (loadMeals st))
    by (simpl; intuition discriminate).
  split; [split; assumption|].
  destruct (addMeal_then_deleteMeal st Hne Hnot) as (Hadd & _ & _ & Hdel).
  split; [exact Hadd | exact Hdel].
Defined.

Lemma trim_trim (s : JSString) : trim (trim s) = trim s.
Proof.
  unfold trim at 1. rewrite (trimStart_fixed _ (trim_noLeading s)).
  unfold trimEnd. rewrite (trimStart_fixed _ (trim_noTrailing s)).
  apply rev_involutive.
Qed.

(** X17.  Duplicates are detected on the trimmed name: once an input has
    been submitted, submitting any input with the same trimmed name, with
    whatever surrounding whitespace, leaves the meal list as it is. *)
Theorem addMeal_same_name_again (st : Page) (v w : JSString) :
  trim w = trim v ->
  loadMeals (run st [TypeMeal v; ClickAddMeal; TypeMeal w; ClickAddMeal])
  = loadMeals (run st [TypeMeal v; ClickAddMeal]).
Proof.
  intros Htrim. unfold run. cbn [fold_left handle].
  set (st1 := addMeal (set_newMealInput st v)).
  rewrite (addMeal_loadMeals (set_newMealInput st1 w)). cbv zeta.
  cbn [newMealInput set_newMealInput]. rewrite Htrim.
  change (loadMeals (set_newMealInput st1 w)) with (loadMeals st1).
  destruct (truthy (Some (trim v))) eqn:Et; [|reflexivity].
  assert (Hin : In (trim v) (loadMeals st1)).
  { unfold st1. rewrite addMeal_loadMeals. cbv zeta.
    cbn [newMealInput set_newMealInput]. rewrite Et.
    change (loadMeals (set_newMealInput st v)) with (loadMeals st).
    destruct (includes (loadMeals st) (trim v)) eqn:Ei; simpl.
    - now apply includes_In.
    - apply in_or_app. right. now left. }
  apply includes_In in Hin. now rewrite Hin.
Qed.

Lemma addMeal_same_name_again_witness :
  let st := mkPage None None None [] [] [] true false [] in
  trim (str "Ramen  ") = trim (str " Ramen")
  /\ loadMeals (run st [TypeMeal (str " Ramen"); ClickAddMeal;
                        TypeMeal (str "Ramen  "); ClickAddMeal])
     = loadMeals (run st [TypeMeal (str " Ramen"); ClickAddMeal]).
Proof.
  intros st.
  assert (H : trim (str "Ramen  ") = trim (str " Ramen")) by reflexivity.
  split; [exact H|].
  exact (addMeal_same_name_again st (str " Ramen") (str "Ramen  ") H).
Defined.

(** ** Emptying the meal list *)

Lemma strictEq_sym_bool (a b : JSString) : strictEq a b = strictEq b a.
Proof.
  destruct (strictEq b a) eqn:E.
  - apply strictEq_true_iff in E. subst. apply strictEq_refl.
  - apply strictEq_false_iff in E. apply strictEq_false_iff. congruence.
Qed.

Lemma run_deletes (names : list JSString) (st : Page) :
  loadMeals (run st (map ClickDelete names))
  = filter (fun meal => negb (includes names meal)) (loadMeals st).
Proof.
  unfold run. revert st. induction names as [|n names IH]; intros st.
  - simpl. symmetry. apply forallb_filter_id, forallb_forall. reflexivity.
  - cbn [map fold_left handle]. rewrite IH, deleteMeal_loadMeals.
    induction (loadMeals st) as [|m l IHl]; [reflexivity|].
    cbn [filter includes existsb].
    rewrite (strictEq_sym_bool n m).
    destruct (strictEq m n); cbn [negb orb filter];
      fold (includes names m); destruct (includes names m);
      cbn [negb]; now rewrite IHl.
Qed.

Lemma filter_all_deleted (names l : list JSString) :
  (forall meal, In meal l -> In meal names) ->
  filter (fun meal => negb (includes names meal)) l = [].
Proof.
  induction l as [|m l IH]; intros Hsub; [reflexivity|]. cbn [filter].
  rewrite (proj2 (includes_In names m)) by (apply Hsub; now left).
  apply IH. intros meal Hin. apply Hsub. now right.
Qed.

(** X18.  Deleting every listed meal, one click per name, leaves an empty
    stored list, not the default list: picking then returns [null] with the
    prompt to add meals, and leaves no pick pending. *)
Theorem delete_all_meals (st : Page) (now : Z) (r : Double.t) :
  let st' := run st (map ClickDelete (loadMeals st)) in
  loadMeals st' = []
  /\ stored_mealList st' = Some []
  /\ fst (pickWeightedMeal st' now r) = Return None
  /\ pickerMessage (snd (pickWeightedMeal st' now r))
     = str "Please add some meals first!"
  /\ truthy (currentPickedMeal (displayPickedMeal st' now r)) = false.
Proof.
  intros st'.
  assert (Hempty : loadMeals st' = []).
  { unfold st'. rewrite run_deletes. now apply filter_all_deleted. }
  split; [exact Hempty|].
  split.
  { unfold loadMeals in Hempty. destruct (stored_mealList st') as [l|].
    - now subst.
    - discriminate Hempty. }
  assert (Hpick : pickWeightedMeal st' now r
                  = (Return None,
                     set_pickerMessage st' (str "Please add some meals first!"))).
  { unfold pickWeightedMeal. rewrite Hempty. reflexivity. }
  rewrite Hpick. split; [reflexivity|]. split; [reflexivity|].
  unfold displayPickedMeal. rewrite Hpick. reflexivity.
Qed.

(** ** The newest entry in the displayed history *)

(** X19.  When every earlier entry is strictly older than the confirmation,
    the entry just confirmed heads the displayed history at any time less
    than 30 days later. *)
Theorem confirmed_meal_heads_history (st : Page) (now now' : Z)
    (meal : JSString) :
  currentPickedMeal st = Some meal -> meal <> [] ->
  (forall item, In item (loadHistory st) -> HistoryItem.date item < now) ->
  now' - RECENT_DAYS_MS < now ->
  exists rest,
    recentHistory (loadHistory (confirmMeal st now)) now'
    = HistoryItem.mk meal now :: rest.
Proof.
  intros Hpicked Hne Holder Hrecent.
  rewrite (confirmMeal_history st now meal Hpicked Hne).
  set (entry := HistoryItem.mk meal now).
  set (history := loadHistory st ++ [entry]).
  assert (Hentry : In entry (recentSorted history now')).
  { apply recentSorted_In. split; [|exact Hrecent].
    apply in_or_app. right. now left. }
  assert (Hsorted : StronglySorted notOlder (recentSorted history now'))
    by apply sort_sorted.
  unfold recentHistory, slice0.
  destruct (recentSorted history now') as [|first others] eqn:E;
    [contradiction|].
  assert (Hfirst : In first (recentSorted history now'))
    by (rewrite E; now left).
  apply recentSorted_In in Hfirst. destruct Hfirst as [Hfirst _].
  assert (first = entry) as ->.
  { apply in_app_or in Hfirst. destruct Hfirst as [Hold | [<- | []]];
      [|reflexivity].
    exfalso. specialize (Holder first Hold).
    assert (Hdate : HistoryItem.date entry = now) by reflexivity.
    destruct Hentry as [Heq | Hin]; [rewrite Heq in Holder; lia|].
    apply StronglySorted_inv in Hsorted. destruct Hsorted as [_ Hall].
    rewrite Forall_forall in Hall. specialize (Hall entry Hin).
    unfold notOlder in Hall. lia. }
  exists (firstn 9 others). reflexivity.
Qed.

Lemma confirmed_meal_heads_history_witness :
  let st := mkPage None (Some [HistoryItem.mk (str "Tacos") 1699000000000])
                   (Some (str "Sushi")) [] [] (str "Sushi") false true [] in
  (currentPickedMeal st = Some (str "Sushi") /\ str "Sushi" <> []
   /\ (forall item, In item (loadHistory st) ->
                    HistoryItem.date item < 1700000000000)
   /\ 1700000000005 - RECENT_DAYS_MS < 1700000000000)
  /\ exists rest,
       recentHistory (loadHistory (confirmMeal st 1700000000000)) 1700000000005
       = HistoryItem.mk (str "Sushi") 1700000000000 :: rest.
Proof.
  intros st.
  assert (Hp : currentPickedMeal st = Some (str "Sushi")) by reflexivity.
  assert (Hne : str "Sushi" <> []) by discriminate.
  assert (Hold : forall item, In item (loadHistory st) ->
                              HistoryItem.date item < 1700000000000).
  { intros item [<- | []]. simpl. lia. }
  assert (Hrec : 1700000000005 - RECENT_DAYS_MS < 1700000000000)
    by (vm_compute; reflexivity).
  split; [repeat split; assumption|].
  exact (confirmed_meal_heads_history st 1700000000000 1700000000005
           (str "Sushi") Hp Hne Hold Hrec).
Defined.

(** ** Relative chances *)

Lemma count_occ_weight (meals : list JSString) (history : list HistoryItem.t)
    (now : Z) (meal : JSString) :
  NoDup meals -> In meal meals ->
  Z.of_nat (count_occ JSString_eq_dec
              (weightedList (mealWeights meals history now)) meal)
  = MealWeight.weight (weigh history now meal).
Proof.
  intros Hnd Hin.
  set (items := mealWeights meals history now).
  rewrite weightedList_count by apply mealWeights_positive.
  assert (Hitem : In (weigh history now meal) items)
    by (unfold items, mealWeights; now apply in_map).
  rewrite <- (weigh_meal history now meal) at 1.
  apply weightOf_unique; [|exact Hitem].
  unfold items, mealWeights. rewrite map_map, map_id. exact Hnd.
Qed.

(** X20.  On a duplicate-free meal list whose selection array fits a
    JavaScript array, a meal with weight 10 holds exactly ten slots of the
    array and a meal with weight 1 exactly one, and every slot is the index
    of some value of [Math.random()]: the meal not eaten recently has ten
    times the slots of the one eaten recently. *)
Theorem non_recent_ten_times_the_slots (meals : list JSString)
    (history : list HistoryItem.t) (now : Z) (recent other : JSString) :
  NoDup meals -> In recent meals -> In other meals ->
  10 * Z.of_nat (length meals) < 2 ^ 32 ->
  MealWeight.weight (weigh history now recent) = 1 ->
  MealWeight.weight (weigh history now other) = 10 ->
  let pool := weightedList (mealWeights meals history now) in
  count_occ JSString_eq_dec pool recent = 1%nat
  /\ count_occ JSString_eq_dec pool other = 10%nat
  /\ (forall slot, (slot < length pool)%nat ->
        exists r, isRandomValue r
                  /\ randomIndex r (length pool) = Z.of_nat slot).
Proof.
  intros Hnd Hr Ho Hfit Hw1 Hw10 pool.
  pose proof (count_occ_weight meals history now recent Hnd Hr) as H1.
  pose proof (count_occ_weight meals history now other Hnd Ho) as H2.
  fold pool in H1, H2. rewrite Hw1 in H1. rewrite Hw10 in H2.
  split; [lia|]. split; [lia|].
  intros slot Hslot. apply randomIndex_slot; [exact Hslot|].
  pose proof (weightedList_length _ (mealWeights_positive meals history now)).
  pose proof (totalWeight_mealWeights_bounds meals history now).
  fold pool in H. lia.
Qed.

Lemma non_recent_ten_times_the_slots_witness :
  let meals := [str "Tacos"; str "Pizza"] in
  let history := [HistoryItem.mk (str "Pizza") 1699827200000] in
  (NoDup meals /\ In (str "Pizza") meals /\ In (str "Tacos") meals
   /\ 10 * Z.of_nat (length meals) < 2 ^ 32
   /\ MealWeight.weight (weigh history 1700000000000 (str "Pizza")) = 1
   /\ MealWeight.weight (weigh history 1700000000000 (str "Tacos")) = 10)
  /\ count_occ JSString_eq_dec
       (weightedList (mealWeights meals history 1700000000000)) (str "Pizza")
     = 1%nat
  /\ count_occ JSString_eq_dec
       (weightedList (mealWeights meals history 1700000000000)) (str "Tacos")
     = 10%nat.
Proof.
  intros meals history.
  assert (Hnd : NoDup meals).
  { repeat (constructor; [simpl; intuition discriminate|]). constructor. }
  assert (Hr : In (str "Pizza") meals) by (simpl; auto).
  assert (Ho : In (str "Tacos") meals) by (simpl; auto).
  assert (Hfit : 10 * Z.of_nat (length meals) < 2 ^ 32)
    by (vm_compute; reflexivity).
  assert (H1 : MealWeight.weight (weigh history 1700000000000 (str "Pizza")) = 1)
    by reflexivity.
  assert (H10 : MealWeight.weight (weigh history 1700000000000 (str "Tacos")) = 10)
    by reflexivity.
  split; [repeat split; assumption|].
  destruct (non_recent_ten_times_the_slots meals history 1700000000000
              (str "Pizza") (str "Tacos") Hnd Hr Ho Hfit H1 H10)
    as (Hc1 & Hc10 & _).
  split; [exact Hc1 | exact Hc10].
Defined.

(** ** What changes the meal list *)

(** X21.  Only the add button and the delete buttons change the stored meal
    list: any sequence of the other actions (typing, picking, confirming,
    cancelling) leaves it exactly as it was. *)
Theorem mealList_changed_only_by_add_delete (st : Page)
    (events : list Event) :
  forallb leavesMealList events = true ->
  stored_mealList (run st events) = stored_mealList st.
Proof.
  unfold run. revert st.
  induction events as [|e events IH]; intros st Hall; [reflexivity|].
  cbn [forallb] in Hall. apply andb_true_iff in Hall. destruct Hall as [He Hall].
  cbn [fold_left]. rewrite (IH _ Hall).
  destruct e as [value| |mealName|now r|now|]; try discriminate He; simpl.
  - reflexivity.
  - apply displayPickedMeal_storage.
  - apply confirmMeal_mealList.
  - reflexivity.
Qed.

Lemma mealList_changed_only_by_add_delete_witness :
  let st := mkPage None None None [] [] [] true false [] in
  let events := [TypeMeal (str "Ramen"); ClickPickMeal 1700000000000 double_0_5;
                 ClickConfirm 1700000000005; ClickCancel] in
  forallb leavesMealList events = true
  /\ stored_mealList (run st events) = stored_mealList st.
Proof.
  intros st events.
  assert (H : forallb leavesMealList events = true) by reflexivity.
  split; [exact H|].
  exact (mealList_changed_only_by_add_delete st events H).
Defined.
